(** * torrentpier feed poller: shallow embedding of [feeds/torrentpier.py]

    The development follows the layout of the Python module: the text
    helpers the extractor relies on, the lxml tree and the three XPath
    queries, the configuration values, the [extractor] and [tracker]
    asynchronous generators and the [http_feed] loop.  Every asynchronous
    generator is embedded as the finite list of things it does when it is
    drained: effects it performs and entries it yields, in program order,
    followed by the exception it propagates, if any. *)

From Stdlib Require Import List String Ascii Bool Arith ZArith Lia Permutation.
Import ListNotations.
Local Open Scope string_scope.
Local Open Scope list_scope.
Local Set Warnings "-register-all".

(** ** Text helpers

    Python [str] values are embedded as [string]; a character is the code
    point it carries (the development stays in the range 0-255). *)

Module Text.

(** [str.isspace] on one character, for code points below 256:
    TAB..CR, the separators FS..US, SPACE, NEL and NBSP. *)
Definition isspace (c : ascii) : bool :=
  let n := nat_of_ascii c in
  (((9 <=? n) && (n <=? 13)) || ((28 <=? n) && (n <=? 32))
   || (n =? 133) || (n =? 160))%nat.

(** [s.lstrip()] *)
Fixpoint lstrip (s : string) : string :=
  match s with
  | EmptyString => EmptyString
  | String c t => if isspace c then lstrip t else s
  end.

(** [s.rstrip()] *)
Fixpoint rstrip (s : string) : string :=
  match s with
  | EmptyString => EmptyString
  | String c t =>
      match rstrip t with
      | EmptyString => if isspace c then EmptyString else String c EmptyString
      | r => String c r
      end
  end.

(** [s.strip()] *)
Definition strip (s : string) : string := rstrip (lstrip s).

(** Truth value of a [str]: the empty string is false. *)
Definition truthy (s : string) : bool :=
  match s with
  | EmptyString => false
  | String _ _ => true
  end.

(** Every character of [s] is whitespace. *)
Fixpoint all_space (s : string) : bool :=
  match s with
  | EmptyString => true
  | String c t => isspace c && all_space t
  end.

(** Last character of a string, if any. *)
Fixpoint last_char (s : string) : option ascii :=
  match s with
  | EmptyString => None
  | String c EmptyString => Some c
  | String _ t => last_char t
  end.

(** XPath [contains(hay, needle)]. *)
Fixpoint contains (hay needle : string) : bool :=
  prefix needle hay
  || match hay with
     | EmptyString => false
     | String _ t => contains t needle
     end.

End Text.

(** ** Exceptions *)

(** [errno.ECONNRESET] (Linux value). *)
Definition ECONNRESET : Z := 104.

(** Exceptions, by the classes of [HTTP_EXCEPTIONS].  [exc_class] is the
    listed class the raised object is an instance of ([Unlisted] when it is
    an instance of none of them, as a [ValueError] is).  [ClientOSError]
    derives from [OSError]; so does [asyncio.TimeoutError], which since
    Python 3.11 is the builtin [TimeoutError], an [OSError] subclass whose
    [errno] is [None] when it is raised without arguments. *)
Inductive ExcClass : Type :=
| ClientOSError
| ClientPayloadError
| InvalidURL
| OSError
| TimeoutError
| Unlisted.

Record Exception : Type := {
  exc_class : ExcClass;
  errno : option Z;              (* [e.errno]; [None] when unset *)
  exc_str : string               (* [str(e)] *)
}.

(** [isinstance(e, HTTP_EXCEPTIONS)] *)
Definition in_HTTP_EXCEPTIONS (e : Exception) : bool :=
  match exc_class e with
  | ClientOSError | ClientPayloadError | InvalidURL | OSError | TimeoutError =>
      true
  | Unlisted => false
  end.

(** [isinstance(e, OSError)] *)
Definition isinstance_OSError (e : Exception) : bool :=
  match exc_class e with
  | ClientOSError | OSError | TimeoutError => true
  | ClientPayloadError | InvalidURL | Unlisted => false
  end.

(** [e.errno != ECONNRESET] *)
Definition errno_ne_ECONNRESET (e : Exception) : bool :=
  match errno e with
  | Some n => negb (Z.eqb n ECONNRESET)
  | None => true
  end.

(** ** The parsed page and the XPath queries

    [lxml.html.fromstring] is a library call; the page text is carried by
    what the parser makes of it. *)

Module Html.

Inductive Node : Type :=
| Text (s : string)
| Element (tag : string) (attrs : list (string * string))
          (children : list Node).

(** What [fromstring(html, parser=parser())] does on a response body:
    it raises [ParserError] / [XMLSyntaxError], or it returns the root, or
    it raises something else, as the [ValueError] it has for a text that
    carries an XML encoding declaration. *)
Inductive Page : Type :=
| Unparsable
| Parsed (root : Node)
| Unsupported (e : Exception).

(** The exception on the left is one that
    [except (ParserError, XMLSyntaxError)] does not catch; [None] on the
    right stands for the two it catches. *)
Definition fromstring (html : Page) : Exception + option Node :=
  match html with
  | Unparsable => inr None
  | Parsed root => inr (Some root)
  | Unsupported e => inl e
  end.

(** Value of the attribute [name] converted to a string: the XPath
    conversion of an empty node-set is the empty string. *)
Fixpoint attribute (name : string) (attrs : list (string * string))
  : option string :=
  match attrs with
  | [] => None
  | (k, v) :: rest => if String.eqb k name then Some v else attribute name rest
  end.

Definition attr_string (name : string) (attrs : list (string * string))
  : string :=
  match attribute name attrs with
  | Some v => v
  | None => ""
  end.

(** [self::t[contains(@class, cls)]] *)
Definition is_tag_with_class (t cls : string) (n : Node) : bool :=
  match n with
  | Text _ => false
  | Element tag attrs _ =>
      String.eqb tag t && Text.contains (attr_string "class" attrs) cls
  end.

(** XPath string-value of a node: the text of its descendants, in
    document order. *)
Fixpoint string_value (n : Node) : string :=
  match n with
  | Text s => s
  | Element _ _ children => String.concat "" (map string_value children)
  end.

(** The [descendant-or-self] axis, in document order. *)
Fixpoint descendant_or_self (n : Node) : list Node :=
  n :: match n with
       | Text _ => []
       | Element _ _ children => flat_map descendant_or_self children
       end.

(** [CONTENT_PATH = "descendant-or-self::tr[contains(@class, 'hl-tr')]"] *)
Definition CONTENT_PATH (root : Node) : list Node :=
  filter (is_tag_with_class "tr" "hl-tr") (descendant_or_self root).

(** Nodes selected below a row by
    [descendant::td[contains(@class, 'tLeft')]/descendant::a[contains(@class, 'tLink')]],
    in document order.  [inside] records that an ancestor of [n] below the
    row is a matching [td]. *)
Fixpoint name_nodes (inside : bool) (n : Node) : list Node :=
  match n with
  | Text _ => []
  | Element _ _ children =>
      (if inside && is_tag_with_class "a" "tLink" n then [n] else [])
      ++ flat_map (name_nodes (inside || is_tag_with_class "td" "tLeft" n))
                  children
  end.

(** [a[@title='Download' or contains(@class, 'tr-dl')]] *)
Definition is_download_anchor (n : Node) : bool :=
  match n with
  | Text _ => false
  | Element tag attrs _ =>
      String.eqb tag "a"
      && (match attribute "title" attrs with
          | Some v => String.eqb v "Download"
          | None => false
          end
          || Text.contains (attr_string "class" attrs) "tr-dl")
  end.

Definition href_of (n : Node) : list string :=
  match n with
  | Text _ => []
  | Element _ attrs _ =>
      match attribute "href" attrs with
      | Some v => [v]
      | None => []
      end
  end.

(** Attribute nodes selected below a row by
    [descendant::td[contains(@class, 'small')]/a[...]/@href], in document
    order.  [under_td] records that the parent of [n] is a matching [td]
    below the row. *)
Fixpoint link_nodes (under_td : bool) (n : Node) : list string :=
  match n with
  | Text _ => []
  | Element _ _ children =>
      (if under_td && is_download_anchor n then href_of n else [])
      ++ flat_map (link_nodes (is_tag_with_class "td" "small" n)) children
  end.

Definition children_of (n : Node) : list Node :=
  match n with
  | Text _ => []
  | Element _ _ children => children
  end.

(** [NAME_PATH = "string(descendant::td[...]/descendant::a[...])"]:
    the string-value of the first selected node, or the empty string. *)
Definition NAME_PATH (tag : Node) : string :=
  match flat_map (name_nodes false) (children_of tag) with
  | [] => ""
  | a :: _ => string_value a
  end.

(** [LINK_PATH = "string(descendant::td[...]/a[...]/@href)"] *)
Definition LINK_PATH (tag : Node) : string :=
  match flat_map (link_nodes false) (children_of tag) with
  | [] => ""
  | h :: _ => h
  end.

End Html.

(** ** Configuration ([utils.config]) and the environment

    The four configuration getters are read from an external source; they
    are carried as a record.  [urllib.parse.urljoin] is a library function
    and stays a parameter of the development. *)

Record Config : Type := {
  tracker_url : string;
  timeout_interval : Z;          (* seconds *)
  cache_limit : nat;
  http_cookies : list (string * string)
}.

(** What [await resp.text()] does. *)
Inductive TextOutcome : Type :=
| TextOk (html : Html.Page)
| TextRaises (e : Exception).

(** What [await session.get(tracker_url(), allow_redirects=False)] does:
    the session is carried by the answer it gives to the request. *)
Inductive GetOutcome : Type :=
| GetRaises (e : Exception)
| GetResponse (status : Z) (text : TextOutcome).

(** Observable effects. *)
Inductive Stream : Type := Stdout | Stderr.

Inductive Event : Type :=
| EvGet (url : string) (allow_redirects : bool)
| EvSleep (seconds : Z)
| EvWrite (stream : Stream) (data : string).

(** [aprint(s)] / [aprint(s, use_stderr=True)]: the text and the line
    terminator, on the chosen stream. *)
Definition LF : string := String (ascii_of_nat 10) EmptyString.

Definition aprint (s : string) (use_stderr : bool) : Event :=
  EvWrite (if use_stderr then Stderr else Stdout) (s ++ LF)%string.

(** ** Asynchronous generators *)

Definition Entry : Type := (string * string)%type.

Inductive Item : Type :=
| Effect (e : Event)
| Yield (x : Entry).

Record Gen : Type := {
  items : list Item;
  raised : option Exception
}.

Definition gen_return : Gen := {| items := []; raised := None |}.
Definition gen_raise (e : Exception) : Gen :=
  {| items := []; raised := Some e |}.
Definition gen_do (ev : Event) : Gen :=
  {| items := [Effect ev]; raised := None |}.
Definition gen_yield (x : Entry) : Gen :=
  {| items := [Yield x]; raised := None |}.

(** Sequencing: the second part runs unless the first one raised. *)
Definition gen_seq (g1 g2 : Gen) : Gen :=
  match raised g1 with
  | Some _ => g1
  | None => {| items := items g1 ++ items g2; raised := raised g2 |}
  end.

Notation "g1 ;; g2" := (gen_seq g1 g2) (at level 61, right associativity).

(** [for x in xs: body x] *)
Fixpoint gen_for {A : Type} (xs : list A) (body : A -> Gen) : Gen :=
  match xs with
  | [] => gen_return
  | x :: rest => body x ;; gen_for rest body
  end.

(** Entries yielded and effects performed, each in program order. *)
Fixpoint yielded (its : list Item) : list Entry :=
  match its with
  | [] => []
  | Yield x :: rest => x :: yielded rest
  | Effect _ :: rest => yielded rest
  end.

Fixpoint effects (its : list Item) : list Event :=
  match its with
  | [] => []
  | Effect e :: rest => e :: effects rest
  | Yield _ :: rest => effects rest
  end.

(** ** The dedup cache ([utils.cache.LRU]) *)

Module LRU.

(** Modelled from the spec: the class [utils.cache.LRU] is imported by the
    module and defined elsewhere.  It is an ordered mapping from link to an
    opaque marker, of fixed capacity; only the keys and their recency
    matter.  [keys] lists them from the most to the least recently
    accessed. *)
Record t : Type := {
  maxsize : nat;
  keys : list string
}.

(** Key presence. *)
Definition mem (k : string) (ks : list string) : bool :=
  existsb (String.eqb k) ks.

(** Modelled from the spec: an access, read or write, makes [k] the most
    recently accessed key. *)
Definition touch (k : string) (ks : list string) : list string :=
  k :: remove string_dec k ks.

(** Modelled from the spec: [put(key)] inserts or refreshes the key; the
    size never exceeds the capacity, the least recently accessed keys
    being evicted. *)
Definition put (k : string) (c : t) : t :=
  {| maxsize := maxsize c;
     keys := firstn (maxsize c) (touch k (keys c)) |}.

(** Modelled from the spec: [contains(key) -> bool]; the membership test
    of an existing key counts as an access and refreshes its recency. *)
Definition contains (k : string) (c : t) : bool * t :=
  if mem k (keys c)
  then (true, {| maxsize := maxsize c; keys := touch k (keys c) |})
  else (false, c).

(** Modelled from the spec: [LRU(capacity, pairs)] seeds an empty cache by
    bulk insertion, in order, respecting the capacity. *)
Definition new (capacity : nat) (pairs : list (string * unit)) : t :=
  fold_left (fun c kv => put (fst kv) c) pairs
            {| maxsize := capacity; keys := [] |}.

(** Modelled from the spec: [not cache] holds when the cache has no key,
    that is when the seeding sweep gave no link to insert. *)
Definition is_empty (c : t) : bool :=
  match keys c with
  | [] => true
  | _ :: _ => false
  end.

(** Keys of an unbounded cache after the accesses [ks], most recent
    first. *)
Definition recency (ks : list string) : list string :=
  fold_left (fun acc k => touch k acc) ks [].

End LRU.

Section Feed.

Variable cfg : Config.
Variable urljoin : string -> string -> string.

(** [COOLDOWN = timeout_interval() * 10] *)
Definition COOLDOWN : Z := timeout_interval cfg * 10.

(** Body of the [for tag in reversed(content)] loop. *)
Definition extract_row (tag : Html.Node) : Gen :=
  let name := Html.NAME_PATH tag in
  let link := Html.LINK_PATH tag in
  if Text.truthy name && Text.truthy link
  then gen_yield (Text.strip name, urljoin (tracker_url cfg) (Text.strip link))
  else gen_return.

Definition extract_rows (tags : list Html.Node) : Gen :=
  gen_for tags extract_row.

(** [async def extractor(html)] *)
Definition extractor (html : Html.Page) : Gen :=
  match Html.fromstring html with
  | inl e => gen_raise e
  | inr None => gen_return
  | inr (Some root) =>
      let content := Html.CONTENT_PATH root in
      match content with
      | [] => gen_do (EvSleep COOLDOWN) ;; gen_return
      | _ :: _ => extract_rows (rev content)
      end
  end.

(** [async def tracker(session)] *)
Definition tracker (session : GetOutcome) : Gen :=
  gen_do (EvGet (tracker_url cfg) false) ;;
  match session with
  | GetRaises e =>
      if in_HTTP_EXCEPTIONS e then
        (if isinstance_OSError e && errno_ne_ECONNRESET e
         then gen_do (aprint ("Connection error: " ++ exc_str e)%string true)
         else gen_return) ;;
        gen_return
      else gen_raise e
  | GetResponse status text =>
      if negb (Z.eqb status 200) then gen_return
      else
        match text with
        | TextRaises e =>
            match exc_class e with
            | TimeoutError => gen_return
            | _ => gen_raise e
            end
        | TextOk html => extractor html
        end
  end.

(** What [tracker] does once the request has been answered. *)
Definition after_get (session : GetOutcome) : Gen :=
  match session with
  | GetRaises e =>
      if in_HTTP_EXCEPTIONS e then
        if isinstance_OSError e && errno_ne_ECONNRESET e
        then gen_do (aprint ("Connection error: " ++ exc_str e)%string true)
        else gen_return
      else gen_raise e
  | GetResponse status text =>
      if negb (Z.eqb status 200) then gen_return
      else
        match text with
        | TextRaises e =>
            match exc_class e with
            | TimeoutError => gen_return
            | _ => gen_raise e
            end
        | TextOk html => extractor html
        end
  end.

(** The list comprehension
    [[(url, None) async for _, url in tracker(session)]]. *)
Definition seed_pairs (its : list Item) : list (string * unit) :=
  map (fun x : Entry => (snd x, tt)) (yielded its).

Definition NUL : string := String (ascii_of_nat 0) EmptyString.

(** Body of the [while True] loop up to the sleep: the [async for] over
    one drained generator, with the cache threaded through. *)
Fixpoint feed_cycle (seen_urls : LRU.t) (its : list Item)
  : list Event * LRU.t :=
  match its with
  | [] => ([], seen_urls)
  | Effect ev :: rest =>
      let '(evs, seen) := feed_cycle seen_urls rest in (ev :: evs, seen)
  | Yield (torrent, url) :: rest =>
      let '(found, seen1) := LRU.contains url seen_urls in
      let '(evs, seen) := feed_cycle seen1 rest in
      ((if negb found then [aprint (torrent ++ NUL ++ url)%string false] else [])
         ++ evs, seen)
  end.

(** Where the process stands once the recorded answers are used up. *)
Inductive Status : Type :=
| SEEDING                        (* awaiting the answer to the first request *)
| RUNNING (seen_urls : LRU.t)    (* at the head of the [while True] loop *)
| ABORT (msg : string)           (* [SystemExit(msg)] *)
| CRASH (e : Exception).         (* an exception left [http_feed] *)

(** The [while True] loop, one recorded answer per iteration. *)
Fixpoint running (seen_urls : LRU.t) (world : list GetOutcome)
  : list Event * Status :=
  match world with
  | [] => ([], RUNNING seen_urls)
  | session :: later =>
      let g := tracker session in
      let '(evs, seen) := feed_cycle seen_urls (items g) in
      match raised g with
      | Some e => (evs, CRASH e)
      | None =>
          let '(evs', st) := running seen later in
          (evs ++ EvSleep (timeout_interval cfg) :: evs', st)
      end
  end.

(** [async def http_feed(args)], run against the recorded answers of the
    session to its successive requests. *)
Definition http_feed (world : list GetOutcome) : list Event * Status :=
  match world with
  | [] => ([], SEEDING)
  | session :: later =>
      let g := tracker session in
      match raised g with
      | Some e => (effects (items g), CRASH e)
      | None =>
          let seen_urls := LRU.new (cache_limit cfg) (seed_pairs (items g)) in
          if LRU.is_empty seen_urls
          then (effects (items g), ABORT "Expired credentials")
          else
            let '(evs', st) := running seen_urls later in
            (effects (items g) ++ evs', st)
      end
  end.

End Feed.

(** ** Reading a trace *)

(** Texts written on one stream, in order. *)
Fixpoint written (st : Stream) (evs : list Event) : list string :=
  match evs with
  | [] => []
  | EvWrite s d :: rest =>
      match st, s with
      | Stdout, Stdout | Stderr, Stderr => d :: written st rest
      | _, _ => written st rest
      end
  | _ :: rest => written st rest
  end.

(** Sleeps requested before the first request of the trace, in order. *)
Fixpoint sleeps_before_get (evs : list Event) : list Z :=
  match evs with
  | [] => []
  | EvGet _ _ :: _ => []
  | EvSleep d :: rest => d :: sleeps_before_get rest
  | EvWrite _ _ :: rest => sleeps_before_get rest
  end.

Definition total (ds : list Z) : Z := fold_right Z.add 0%Z ds.

(** Total sleep requested after each request of the trace, up to the
    following request (or the end of the trace). *)
Fixpoint delays (evs : list Event) : list Z :=
  match evs with
  | [] => []
  | EvGet _ _ :: rest => total (sleeps_before_get rest) :: delays rest
  | _ :: rest => delays rest
  end.

(** ** Sample data

    A listing as the tracker renders it, used to run the definitions on
    concrete pages. *)

Module Sample.
Import Html.

Definition cell (cls : string) (children : list Node) : Node :=
  Element "td" [("class", cls)] children.

(** One topic row: the title anchor and the download anchor. *)
Definition row (name href : string) : Node :=
  Element "tr" [("class", "tCenter hl-tr")]
    [cell "row1 tLeft"
       [Element "a" [("class", "tLink bold"); ("href", "viewtopic.php")]
                [Text name]];
     cell "row4 small nowrap"
       [Element "a" [("class", "small tr-dl"); ("href", href)]
                [Text "1 GB"]]].

(** A topic row whose download anchor is missing. *)
Definition row_without_link (name : string) : Node :=
  Element "tr" [("class", "tCenter hl-tr")]
    [cell "row1 tLeft" [Element "a" [("class", "tLink bold")] [Text name]];
     cell "row4 small nowrap" [Text "-"]].

Definition table (rows : list Node) : Node :=
  Element "table" [("class", "forumline")] rows.

Definition page (rows : list Node) : Page :=
  Parsed (Element "html" [] [Element "body" [] [table rows]]).

Definition cfg : Config :=
  {| tracker_url := "https://tracker";
     timeout_interval := 30;
     cache_limit := 8;
     http_cookies := [("bb_session", "0-1-abc")] |}.

(** [urljoin] on the references the samples use: against a base URL
    without a path, an empty reference gives the base and a reference that
    is an absolute path is appended to it. *)
Definition urljoin (base url : string) : string :=
  match url with
  | EmptyString => base
  | String _ _ => (base ++ url)%string
  end.

Definition ok (html : Page) : GetOutcome := GetResponse 200 (TextOk html).

Definition listing_empty : GetOutcome := ok (page []).
Definition listing_A : GetOutcome := ok (page [row "A" "/t/1"]).
Definition listing_AB : GetOutcome :=
  ok (page [row "A" "/t/1"; row "B" "/t/2"]).
Definition listing_ABC : GetOutcome :=
  ok (page [row "A" "/t/1"; row "B" "/t/2"; row "C" "/t/3"]).

(** The cache right after seeding from [listing_A]. *)
Definition seen_A : LRU.t :=
  {| LRU.maxsize := 8; LRU.keys := ["https://tracker/t/1"] |}.

Definition connection_reset : Exception :=
  {| exc_class := ClientOSError;
     errno := Some ECONNRESET;
     exc_str := "[Errno 104] Connection reset by peer" |}.

Definition connection_refused : Exception :=
  {| exc_class := ClientOSError;
     errno := Some 111%Z;
     exc_str := "[Errno 111] Connect call failed" |}.

Definition payload_error : Exception :=
  {| exc_class := ClientPayloadError;
     errno := None;
     exc_str := "Response payload is not completed" |}.

(** A request timeout: [asyncio.TimeoutError()], raised without
    arguments. *)
Definition request_timeout : Exception :=
  {| exc_class := TimeoutError; errno := None; exc_str := "" |}.

(** The [ValueError] of [fromstring] on a text that opens with an XML
    declaration naming an encoding, and such a body. *)
Definition value_error : Exception :=
  {| exc_class := Unlisted;
     errno := None;
     exc_str := "Unicode strings with encoding declaration are not supported. Please use bytes input or XML fragments without declaration." |}.

Definition declared_page : Page := Unsupported value_error.


(** The two cells of [row "A" "/t/1"] and their anchors. *)
Definition name_anchor_A : Node :=
  Element "a" [("class", "tLink bold"); ("href", "viewtopic.php")] [Text "A"].
Definition name_cell_A : Node := cell "row1 tLeft" [name_anchor_A].
Definition link_anchor_A : Node :=
  Element "a" [("class", "small tr-dl"); ("href", "/t/1")] [Text "1 GB"].
Definition link_cell_A : Node := cell "row4 small nowrap" [link_anchor_A].

End Sample.

(** ** The XPath steps, one axis at a time

    The three queries are location paths; the definitions below read
    them step by step, as the XPath data model does. *)

Module XPath.
Import Html.

(** The [descendant] axis, in document order. *)
Definition descendant (n : Node) : list Node :=
  flat_map descendant_or_self (children_of n).

(** [td[contains(@class, 'tLeft')]] and [a[contains(@class, 'tLink')]] *)
Definition is_name_cell : Node -> bool := is_tag_with_class "td" "tLeft".
Definition is_name_anchor : Node -> bool := is_tag_with_class "a" "tLink".

(** [td[contains(@class, 'small')]] *)
Definition is_link_cell : Node -> bool := is_tag_with_class "td" "small".

(** [if name and link] on a content row. *)
Definition usable (tag : Node) : bool :=
  Text.truthy (NAME_PATH tag) && Text.truthy (LINK_PATH tag).

End XPath.

(** Number of line feeds in a text, that is the number of lines a
    line-oriented reader of the stream gets from it. *)
Fixpoint line_feeds (s : string) : nat :=
  match s with
  | EmptyString => 0
  | String c t => (if Ascii.eqb c "010" then 1 else 0) + line_feeds t
  end.

(** ** Reading the answers of the session *)

(** Requests of a trace, in order: the URL and the redirect flag. *)
Fixpoint requests (evs : list Event) : list (string * bool) :=
  match evs with
  | [] => []
  | EvGet url redirects :: rest => (url, redirects) :: requests rest
  | _ :: rest => requests rest
  end.

(** Sleeps of a trace, in order. *)
Fixpoint sleeps (evs : list Event) : list Z :=
  match evs with
  | [] => []
  | EvSleep d :: rest => d :: sleeps rest
  | _ :: rest => sleeps rest
  end.

(** The answer is a decoded 200 page that parses and has no content row:
    the case in which [extractor] awaits the cooldown. *)
Definition cooldown_due (session : GetOutcome) : bool :=
  match session with
  | GetResponse status (TextOk (Html.Parsed root)) =>
      Z.eqb status 200
      && match Html.CONTENT_PATH root with
         | [] => true
         | _ :: _ => false
         end
  | _ => false
  end.

(** * Properties *)

(** ** Stripping *)

Module TextFacts.
Import Text.

Lemma lstrip_head (s : string) (c : ascii) (t : string) :
  lstrip s = String c t -> isspace c = false.
Proof.
  induction s as [|a s IH]; simpl; [discriminate|].
  destruct (isspace a) eqn:Ha; [exact IH|].
  intros E; injection E as <- _; exact Ha.
Qed.

Lemma rstrip_head (s : string) (c : ascii) (t : string) :
  rstrip s = String c t -> exists t', s = String c t'.
Proof.
  destruct s as [|a s]; simpl; [discriminate|].
  destruct (rstrip s); [destruct (isspace a); [discriminate|]|];
    intros E; injection E as <- _; eauto.
Qed.

Lemma rstrip_last (s : string) (c : ascii) :
  last_char (rstrip s) = Some c -> isspace c = false.
Proof.
  induction s as [|a s IH]; simpl; [discriminate|].
  destruct (rstrip s) as [|b r] eqn:Er.
  - destruct (isspace a) eqn:Ha; simpl; [discriminate|].
    intros E; injection E as <-; exact Ha.
  - simpl. exact IH.
Qed.

Lemma lstrip_split (s : string) :
  exists l, s = (l ++ lstrip s)%string /\ all_space l = true.
Proof.
  induction s as [|a s (l & E & Hl)]; simpl.
  - exists EmptyString; split; reflexivity.
  - destruct (isspace a) eqn:Ha.
    + exists (String a l); simpl; rewrite Ha, Hl; split; [f_equal; exact E|reflexivity].
    + exists EmptyString; split; reflexivity.
Qed.

Lemma rstrip_split (s : string) :
  exists r, s = (rstrip s ++ r)%string /\ all_space r = true.
Proof.
  induction s as [|a s (r & E & Hr)]; simpl.
  - exists EmptyString; split; reflexivity.
  - destruct (rstrip s) as [|b u] eqn:Eu.
    + destruct (isspace a) eqn:Ha.
      * exists (String a r); simpl in *; rewrite Ha, Hr; split; [f_equal; exact E|reflexivity].
      * exists r; simpl in *; split; [f_equal; exact E|exact Hr].
    + exists r; split; [simpl; f_equal; exact E|exact Hr].
Qed.

Lemma lstrip_all_space (s : string) :
  all_space s = true -> lstrip s = EmptyString.
Proof.
  induction s as [|a s IH]; simpl; [reflexivity|].
  destruct (isspace a); simpl; [exact IH|discriminate].
Qed.

Lemma strip_all_space (s : string) :
  all_space s = true -> strip s = EmptyString.
Proof.
  intros H; unfold strip; rewrite (lstrip_all_space s H); reflexivity.
Qed.

Lemma strip_head (s : string) (c : ascii) (t : string) :
  strip s = String c t -> isspace c = false.
Proof.
  unfold strip; intros E.
  destruct (rstrip_head _ _ _ E) as [t' E'].
  exact (lstrip_head _ _ _ E').
Qed.

Lemma strip_last (s : string) (c : ascii) :
  last_char (strip s) = Some c -> isspace c = false.
Proof. unfold strip; apply rstrip_last. Qed.

Lemma strip_split (s : string) :
  exists l r, s = (l ++ strip s ++ r)%string
              /\ all_space l = true /\ all_space r = true.
Proof.
  destruct (lstrip_split s) as (l & El & Hl).
  destruct (rstrip_split (lstrip s)) as (r & Er & Hr).
  exists l, r; unfold strip; rewrite <- Er; auto.
Qed.

Lemma append_assoc (a b c : string) :
  ((a ++ b) ++ c)%string = (a ++ b ++ c)%string.
Proof. induction a as [|x a IH]; simpl; [reflexivity|now rewrite IH]. Qed.

Lemma truthy_iff (s : string) : truthy s = true <-> s <> EmptyString.
Proof. destruct s; simpl; split; congruence. Qed.

End TextFacts.

(** ** Generators *)

Lemma yielded_app (a b : list Item) : yielded (a ++ b) = yielded a ++ yielded b.
Proof.
  induction a as [|[e|x] a IH]; simpl; [reflexivity|exact IH|now rewrite IH].
Qed.

Lemma effects_app (a b : list Item) : effects (a ++ b) = effects a ++ effects b.
Proof.
  induction a as [|[e|x] a IH]; simpl; [reflexivity|now rewrite IH|exact IH].
Qed.

Lemma written_app (st : Stream) (a b : list Event) :
  written st (a ++ b) = written st a ++ written st b.
Proof.
  induction a as [|[u r|d|s d] a IH]; simpl; try exact IH; [reflexivity|].
  destruct st, s; simpl; rewrite ?IH; reflexivity.
Qed.

Lemma gen_seq_ok (g1 g2 : Gen) :
  raised g1 = None ->
  items (g1 ;; g2) = items g1 ++ items g2 /\ raised (g1 ;; g2) = raised g2.
Proof. unfold gen_seq; intros ->; simpl; auto. Qed.

Section ExtractorFacts.

Variable cfg : Config.
Variable urljoin : string -> string -> string.

Lemma extract_row_raised (tag : Html.Node) : raised (extract_row cfg urljoin tag) = None.
Proof.
  unfold extract_row.
  destruct (Text.truthy _ && Text.truthy _); reflexivity.
Qed.

Lemma extract_row_effects (tag : Html.Node) :
  effects (items (extract_row cfg urljoin tag)) = [].
Proof.
  unfold extract_row.
  destruct (Text.truthy _ && Text.truthy _); reflexivity.
Qed.

Lemma extract_row_yielded (tag : Html.Node) :
  yielded (items (extract_row cfg urljoin tag)) =
  if Text.truthy (Html.NAME_PATH tag) && Text.truthy (Html.LINK_PATH tag)
  then [(Text.strip (Html.NAME_PATH tag),
         urljoin (tracker_url cfg) (Text.strip (Html.LINK_PATH tag)))]
  else [].
Proof.
  unfold extract_row.
  destruct (Text.truthy _ && Text.truthy _); reflexivity.
Qed.

Lemma extract_rows_cons (tag : Html.Node) (tags : list Html.Node) :
  items (extract_rows cfg urljoin (tag :: tags))
  = items (extract_row cfg urljoin tag) ++ items (extract_rows cfg urljoin tags)
  /\ raised (extract_rows cfg urljoin (tag :: tags)) = raised (extract_rows cfg urljoin tags).
Proof. apply gen_seq_ok, extract_row_raised. Qed.

Lemma extract_rows_raised (tags : list Html.Node) :
  raised (extract_rows cfg urljoin tags) = None.
Proof.
  induction tags as [|tag tags IH]; [reflexivity|].
  now rewrite (proj2 (extract_rows_cons tag tags)).
Qed.

Lemma extract_rows_effects (tags : list Html.Node) :
  effects (items (extract_rows cfg urljoin tags)) = [].
Proof.
  induction tags as [|tag tags IH]; [reflexivity|].
  rewrite (proj1 (extract_rows_cons tag tags)), effects_app.
  now rewrite extract_row_effects, IH.
Qed.

Lemma extract_rows_yielded_cons (tag : Html.Node) (tags : list Html.Node) :
  yielded (items (extract_rows cfg urljoin (tag :: tags)))
  = yielded (items (extract_row cfg urljoin tag)) ++ yielded (items (extract_rows cfg urljoin tags)).
Proof. now rewrite (proj1 (extract_rows_cons tag tags)), yielded_app. Qed.

Lemma extract_rows_yielded_app (l1 l2 : list Html.Node) :
  yielded (items (extract_rows cfg urljoin (l1 ++ l2)))
  = yielded (items (extract_rows cfg urljoin l1)) ++ yielded (items (extract_rows cfg urljoin l2)).
Proof.
  induction l1 as [|tag l1 IH]; [reflexivity|].
  rewrite <- app_comm_cons, !extract_rows_yielded_cons, IH.
  now rewrite app_assoc.
Qed.

Lemma extract_rows_yielded_rev (tags : list Html.Node) :
  yielded (items (extract_rows cfg urljoin (rev tags)))
  = rev (yielded (items (extract_rows cfg urljoin tags))).
Proof.
  induction tags as [|tag tags IH]; [reflexivity|].
  simpl rev. rewrite extract_rows_yielded_app, IH.
  rewrite (extract_rows_yielded_cons tag tags), rev_app_distr.
  f_equal.
  rewrite (extract_rows_yielded_cons tag []). simpl.
  rewrite app_nil_r, extract_row_yielded.
  destruct (Text.truthy _ && Text.truthy _); reflexivity.
Qed.

Lemma extractor_parsed_yielded (root : Html.Node) :
  yielded (items (extractor cfg urljoin (Html.Parsed root)))
  = yielded (items (extract_rows cfg urljoin (rev (Html.CONTENT_PATH root)))).
Proof.
  unfold extractor; simpl.
  destruct (Html.CONTENT_PATH root); reflexivity.
Qed.

Lemma extractor_parsed_raised (root : Html.Node) :
  raised (extractor cfg urljoin (Html.Parsed root)) = None.
Proof.
  unfold extractor; simpl.
  destruct (Html.CONTENT_PATH root) as [|tag tags]; [reflexivity|].
  apply extract_rows_raised.
Qed.

(** The extractor passes on what [fromstring] raises and does not catch. *)
Lemma extractor_raised_inv (html : Html.Page) (e : Exception) :
  raised (extractor cfg urljoin html) = Some e ->
  html = Html.Unsupported e /\ items (extractor cfg urljoin html) = [].
Proof.
  destruct html as [|root|x].
  - discriminate.
  - rewrite extractor_parsed_raised; discriminate.
  - cbn; intros E; injection E as ->; auto.
Qed.

Lemma extractor_written (st : Stream) (html : Html.Page) :
  written st (effects (items (extractor cfg urljoin html))) = [].
Proof.
  unfold extractor.
  destruct html as [|root|x]; simpl; [reflexivity| |reflexivity].
  destruct (Html.CONTENT_PATH root) as [|tag tags]; [reflexivity|].
  fold (extract_rows cfg urljoin (rev (tag :: tags))).
  now rewrite extract_rows_effects.
Qed.

End ExtractorFacts.

(** ** The dedup cache *)

Module LRUFacts.
Import LRU.

Lemma mem_In (k : string) (ks : list string) : mem k ks = true <-> In k ks.
Proof.
  unfold mem; rewrite existsb_exists; split.
  - intros (x & Hx & E); apply String.eqb_eq in E; now subst.
  - intros H; exists k; split; [exact H|apply String.eqb_refl].
Qed.

Lemma mem_false (k : string) (ks : list string) :
  mem k ks = false <-> ~ In k ks.
Proof.
  rewrite <- mem_In; destruct (mem k ks); split; congruence.
Qed.

Lemma NoDup_remove_key (k : string) (ks : list string) :
  NoDup ks -> NoDup (remove string_dec k ks).
Proof.
  induction 1 as [|x l Hx Hl IH]; simpl; [constructor|].
  destruct (string_dec k x); [exact IH|].
  constructor; [|exact IH].
  intros Hin; apply in_remove in Hin; tauto.
Qed.

Lemma NoDup_touch (k : string) (ks : list string) :
  NoDup ks -> NoDup (touch k ks).
Proof.
  intros H; constructor; [apply remove_In|now apply NoDup_remove_key].
Qed.

Lemma NoDup_firstn_keys (n : nat) (ks : list string) :
  NoDup ks -> NoDup (firstn n ks).
Proof.
  intros H; rewrite <- (firstn_skipn n ks) in H.
  exact (NoDup_app_remove_r _ _ H).
Qed.

Lemma In_touch (k x : string) (ks : list string) :
  In x (touch k ks) <-> x = k \/ In x ks.
Proof.
  unfold touch; simpl; split.
  - intros [->|H]; [now left|right; now apply in_remove in H].
  - intros [->|H]; [now left|].
    destruct (string_dec x k) as [->|Hne]; [now left|right].
    now apply in_in_remove.
Qed.

Lemma touch_present_perm (k : string) (ks : list string) :
  NoDup ks -> In k ks -> Permutation (touch k ks) ks.
Proof.
  intros Hnd Hin.
  apply NoDup_Permutation; [now apply NoDup_touch|exact Hnd|].
  intros x; rewrite In_touch; split; [intros [->|H]; assumption|tauto].
Qed.

(** Truncating before or after an access gives the same bounded cache. *)
Lemma firstn_remove_firstn (k : string) (n : nat) (ks : list string) :
  NoDup ks ->
  firstn n (remove string_dec k (firstn (S n) ks))
  = firstn n (remove string_dec k ks).
Proof.
  intros Hnd; revert n; induction Hnd as [|x l Hx Hl IH]; intros n.
  - reflexivity.
  - cbn [firstn remove].
    destruct (string_dec k x) as [->|Hne].
    + rewrite (notin_remove string_dec l x Hx).
      rewrite notin_remove; [now rewrite firstn_firstn, Nat.min_id|].
      intros Hin; apply Hx; rewrite <- (firstn_skipn n l).
      apply in_or_app; now left.
    + destruct n as [|n]; [reflexivity|].
      cbn [firstn]; f_equal; apply IH.
Qed.

Lemma put_truncated (k : string) (n : nat) (ks : list string) :
  NoDup ks ->
  firstn n (touch k (firstn n ks)) = firstn n (touch k ks).
Proof.
  intros Hnd; destruct n as [|n]; [reflexivity|].
  unfold touch; cbn [firstn]; f_equal.
  now apply firstn_remove_firstn.
Qed.

Lemma fold_put_keys (n : nat) (pairs : list (string * unit))
      (ks : list string) :
  NoDup ks ->
  keys (fold_left (fun c kv => put (fst kv) c) pairs
                  {| maxsize := n; keys := firstn n ks |})
  = firstn n (fold_left (fun acc k => touch k acc) (map fst pairs) ks)
  /\ maxsize (fold_left (fun c kv => put (fst kv) c) pairs
                        {| maxsize := n; keys := firstn n ks |}) = n.
Proof.
  revert ks; induction pairs as [|[k u] pairs IH]; intros ks Hnd.
  - split; reflexivity.
  - cbn [fold_left map fst]. unfold put at 2 4; cbn [maxsize keys].
    rewrite (put_truncated k n ks Hnd).
    apply IH, NoDup_touch, Hnd.
Qed.

(** The seeded cache holds the most recent [capacity] distinct keys. *)
Lemma new_keys (capacity : nat) (pairs : list (string * unit)) :
  keys (new capacity pairs) = firstn capacity (recency (map fst pairs)).
Proof.
  unfold new, recency.
  rewrite <- (firstn_nil string capacity) at 1.
  apply fold_put_keys; constructor.
Qed.

Lemma new_maxsize (capacity : nat) (pairs : list (string * unit)) :
  maxsize (new capacity pairs) = capacity.
Proof.
  unfold new.
  rewrite <- (firstn_nil string capacity).
  apply fold_put_keys; constructor.
Qed.

Lemma fold_touch_spec (ks acc : list string) :
  NoDup acc ->
  NoDup (fold_left (fun a k => touch k a) ks acc)
  /\ forall x, In x (fold_left (fun a k => touch k a) ks acc)
               <-> In x ks \/ In x acc.
Proof.
  revert acc; induction ks as [|k ks IH]; intros acc Hnd; cbn [fold_left].
  - split; [exact Hnd|intros x; simpl; tauto].
  - destruct (IH (touch k acc) (NoDup_touch k acc Hnd)) as [H1 H2].
    split; [exact H1|].
    intros x; rewrite H2, In_touch; simpl; intuition congruence.
Qed.

Lemma NoDup_recency (ks : list string) : NoDup (recency ks).
Proof. apply fold_touch_spec; constructor. Qed.

Lemma In_recency (ks : list string) (x : string) :
  In x (recency ks) <-> In x ks.
Proof.
  unfold recency.
  rewrite (proj2 (fold_touch_spec ks [] (NoDup_nil _))); simpl; tauto.
Qed.

Lemma recency_head (ks : list string) (k : string) :
  recency (ks ++ [k]) = touch k (recency ks).
Proof. unfold recency; now rewrite fold_left_app. Qed.

Lemma length_recency (ks : list string) :
  List.length (recency ks) = List.length (nodup string_dec ks).
Proof.
  apply Nat.le_antisymm; apply NoDup_incl_length.
  - apply NoDup_recency.
  - intros x; rewrite In_recency, nodup_In; auto.
  - apply NoDup_nodup.
  - intros x; rewrite In_recency, nodup_In; auto.
Qed.

Lemma NoDup_new (capacity : nat) (pairs : list (string * unit)) :
  NoDup (keys (new capacity pairs)).
Proof. rewrite new_keys; apply NoDup_firstn_keys, NoDup_recency. Qed.

(** With room for every distinct key, nothing is evicted. *)
Lemma new_keys_fit (capacity : nat) (pairs : list (string * unit)) :
  List.length (nodup string_dec (map fst pairs)) <= capacity ->
  keys (new capacity pairs) = recency (map fst pairs).
Proof.
  intros H; rewrite new_keys; apply firstn_all2.
  now rewrite length_recency.
Qed.

(** A seeded cache of positive capacity is empty only when no key was
    inserted. *)
Lemma new_is_empty (capacity : nat) (pairs : list (string * unit)) :
  1 <= capacity ->
  is_empty (new capacity pairs) = true <-> pairs = [].
Proof.
  intros Hc; unfold is_empty; rewrite new_keys.
  destruct pairs as [|p pairs] using rev_ind; [simpl; rewrite firstn_nil; tauto|].
  rewrite map_app; cbn [map]; rewrite recency_head.
  destruct capacity as [|n]; [lia|].
  unfold touch; cbn [firstn]; split; [discriminate|].
  intros E; destruct pairs; discriminate.
Qed.

(** A membership test keeps the key set, the capacity and the absence
    of duplicates. *)
Lemma contains_spec (k : string) (c : t) :
  NoDup (keys c) ->
  fst (contains k c) = mem k (keys c)
  /\ maxsize (snd (contains k c)) = maxsize c
  /\ NoDup (keys (snd (contains k c)))
  /\ Permutation (keys (snd (contains k c))) (keys c).
Proof.
  intros Hnd; unfold contains.
  destruct (mem k (keys c)) eqn:Hm; cbn [fst snd keys maxsize].
  - apply mem_In in Hm.
    repeat split; [now apply NoDup_touch|now apply touch_present_perm].
  - repeat split; [exact Hnd|apply Permutation_refl].
Qed.

Lemma mem_perm (k : string) (ks ks' : list string) :
  Permutation ks ks' -> mem k ks = mem k ks'.
Proof.
  intros Hp.
  destruct (mem k ks') eqn:E.
  - apply mem_In; apply mem_In in E.
    now apply (Permutation_in k (Permutation_sym Hp)).
  - apply mem_false; apply mem_false in E.
    intros H; apply E; now apply (Permutation_in k Hp).
Qed.

(** The model meets the contract the spec words for the cache: the size
    stays within the capacity, a new key entering a full cache evicts the
    least recently accessed one, and an insertion is idempotent. *)
Lemma put_size (k : string) (c : t) :
  List.length (keys (put k c)) <= maxsize c.
Proof. unfold put; cbn [keys]; apply firstn_le_length. Qed.

Lemma put_maxsize (k : string) (c : t) : maxsize (put k c) = maxsize c.
Proof. reflexivity. Qed.

Lemma put_evicts_least_recent (k : string) (c : t) :
  1 <= maxsize c ->
  List.length (keys c) = maxsize c ->
  ~ In k (keys c) ->
  keys (put k c) = k :: removelast (keys c).
Proof.
  intros Hc Hlen Hk; unfold put, touch; cbn [keys].
  rewrite (notin_remove string_dec _ _ Hk).
  rewrite <- Hlen in *.
  destruct (keys c) as [|x ks]; [cbn in Hc; lia|].
  change (List.length (x :: ks)) with (S (List.length ks)).
  cbn [firstn]; f_equal.
  symmetry; apply (removelast_firstn_len (x :: ks)).
Qed.

Lemma put_has_room (k : string) (c : t) :
  List.length (keys c) < maxsize c ->
  ~ In k (keys c) ->
  keys (put k c) = k :: keys c.
Proof.
  intros Hlen Hk; unfold put, touch; cbn [keys].
  rewrite (notin_remove string_dec _ _ Hk).
  apply firstn_all2; cbn [List.length]; lia.
Qed.

Lemma put_idempotent (k : string) (c : t) :
  1 <= maxsize c ->
  put k (put k c) = put k c.
Proof.
  intros Hc; unfold put, touch; cbn [keys maxsize]; f_equal.
  destruct (maxsize c) as [|n]; [lia|].
  cbn [firstn remove].
  destruct (string_dec k k) as [_|Hne]; [|contradiction].
  f_equal.
  rewrite (notin_remove string_dec (firstn n _) k).
  - now rewrite firstn_firstn, Nat.min_id.
  - intros Hin; apply (remove_In string_dec (keys c) k).
    rewrite <- (firstn_skipn n (remove string_dec k (keys c))).
    apply in_or_app; now left.
Qed.

End LRUFacts.

(** ** The tracker client *)

Lemma gen_do_seq (ev : Event) (g : Gen) :
  items (gen_do ev ;; g) = Effect ev :: items g
  /\ raised (gen_do ev ;; g) = raised g.
Proof. split; reflexivity. Qed.

Section TrackerFacts.

Variable cfg : Config.
Variable urljoin : string -> string -> string.

Lemma tracker_after_get (session : GetOutcome) :
  items (tracker cfg urljoin session)
  = Effect (EvGet (tracker_url cfg) false) :: items (after_get cfg urljoin session)
  /\ raised (tracker cfg urljoin session) = raised (after_get cfg urljoin session).
Proof.
  unfold tracker.
  match goal with |- context [gen_do ?ev ;; ?g] =>
    destruct (gen_do_seq ev g) as [-> ->] end.
  destruct session as [e|status text]; cbn [after_get].
  - destruct (in_HTTP_EXCEPTIONS e); [|split; reflexivity].
    destruct (isinstance_OSError e && errno_ne_ECONNRESET e);
      split; reflexivity.
  - split; reflexivity.
Qed.

Lemma after_get_raised_yielded (session : GetOutcome) (e : Exception) :
  raised (after_get cfg urljoin session) = Some e ->
  items (after_get cfg urljoin session) = [].
Proof.
  destruct session as [x|status text]; cbn [after_get].
  - destruct (in_HTTP_EXCEPTIONS x); [|reflexivity].
    destruct (isinstance_OSError x && errno_ne_ECONNRESET x); discriminate.
  - destruct (negb (Z.eqb status 200)); [discriminate|].
    destruct text as [html|x].
    + intros E; now apply extractor_raised_inv in E.
    + destruct (exc_class x); try reflexivity; discriminate.
Qed.

Lemma after_get_written_stdout (session : GetOutcome) :
  written Stdout (effects (items (after_get cfg urljoin session))) = [].
Proof.
  destruct session as [x|status text]; cbn [after_get].
  - destruct (in_HTTP_EXCEPTIONS x); [|reflexivity].
    destruct (isinstance_OSError x && errno_ne_ECONNRESET x); reflexivity.
  - destruct (negb (Z.eqb status 200)); [reflexivity|].
    destruct text as [html|x].
    + apply extractor_written.
    + destruct (exc_class x); reflexivity.
Qed.

Lemma tracker_written_stdout (session : GetOutcome) :
  written Stdout (effects (items (tracker cfg urljoin session))) = [].
Proof.
  rewrite (proj1 (tracker_after_get session)); cbn [effects written].
  apply after_get_written_stdout.
Qed.

Lemma tracker_yielded (session : GetOutcome) :
  yielded (items (tracker cfg urljoin session))
  = yielded (items (after_get cfg urljoin session)).
Proof. now rewrite (proj1 (tracker_after_get session)). Qed.

End TrackerFacts.

(** ** The poll loop *)

Lemma written_stdout_cons (ev : Event) (evs : list Event) :
  written Stdout (ev :: evs) = [] ->
  written Stdout [ev] = [] /\ written Stdout evs = [].
Proof.
  destruct ev as [u r|d|[|] d]; simpl; auto; discriminate.
Qed.

Lemma feed_cycle_spec (seen : LRU.t) (its : list Item) :
  NoDup (LRU.keys seen) ->
  written Stdout (effects its) = [] ->
  written Stdout (fst (feed_cycle seen its))
  = map (fun x : Entry => (fst x ++ NUL ++ snd x ++ LF)%string)
        (filter (fun x : Entry => negb (LRU.mem (snd x) (LRU.keys seen)))
                (yielded its))
  /\ LRU.maxsize (snd (feed_cycle seen its)) = LRU.maxsize seen
  /\ NoDup (LRU.keys (snd (feed_cycle seen its)))
  /\ Permutation (LRU.keys (snd (feed_cycle seen its))) (LRU.keys seen).
Proof.
  revert seen; induction its as [|[ev|[torrent url]] its IH]; intros seen Hnd Hw.
  - simpl; auto.
  - cbn [effects] in Hw; apply written_stdout_cons in Hw as [Hev Hw].
    specialize (IH seen Hnd Hw).
    cbn [feed_cycle yielded]; destruct (feed_cycle seen its) as [evs seen'].
    cbn [fst snd] in *.
    change (ev :: evs) with ([ev] ++ evs); rewrite written_app, Hev.
    exact IH.
  - cbn [effects] in Hw.
    destruct (LRUFacts.contains_spec url seen Hnd) as (Hf & Hm & Hnd1 & Hp).
    cbn [feed_cycle yielded filter snd].
    destruct (LRU.contains url seen) as [found seen1]; cbn [fst snd] in *.
    destruct (IH seen1 Hnd1 Hw) as (Iw & Im & Ind & Ip).
    destruct (feed_cycle seen1 its) as [evs seen']; cbn [fst snd] in *.
    rewrite written_app, Iw, <- Hf.
    assert (Hfilter :
      filter (fun x : Entry => negb (LRU.mem (snd x) (LRU.keys seen1)))
             (yielded its)
      = filter (fun x : Entry => negb (LRU.mem (snd x) (LRU.keys seen)))
               (yielded its)).
    { apply filter_ext; intros x; f_equal; now apply LRUFacts.mem_perm. }
    rewrite Hfilter.
    repeat split.
    + destruct found; cbn [negb map app written aprint fst snd]; [reflexivity|].
      now rewrite !TextFacts.append_assoc.
    + congruence.
    + exact Ind.
    + now transitivity (LRU.keys seen1).
Qed.

Section LoopFacts.

Variable cfg : Config.
Variable urljoin : string -> string -> string.

Lemma running_cons (seen : LRU.t) (session : GetOutcome)
      (later : list GetOutcome) :
  running cfg urljoin seen (session :: later)
  = match raised (tracker cfg urljoin session) with
    | Some e =>
        (fst (feed_cycle seen (items (tracker cfg urljoin session))), CRASH e)
    | None =>
        let cyc := feed_cycle seen (items (tracker cfg urljoin session)) in
        (fst cyc ++ EvSleep (timeout_interval cfg)
             :: fst (running cfg urljoin (snd cyc) later),
         snd (running cfg urljoin (snd cyc) later))
    end.
Proof.
  cbn [running].
  destruct (feed_cycle seen (items (tracker cfg urljoin session))) as [evs s1].
  destruct (raised (tracker cfg urljoin session)); [reflexivity|].
  cbn [fst snd]; destruct (running cfg urljoin s1 later); reflexivity.
Qed.

(** The loop is left only by an exception. *)
Lemma running_status (seen : LRU.t) (world : list GetOutcome) :
  (exists seen', snd (running cfg urljoin seen world) = RUNNING seen')
  \/ (exists e, snd (running cfg urljoin seen world) = CRASH e).
Proof.
  revert seen; induction world as [|session later IH]; intros seen.
  - left; exists seen; reflexivity.
  - rewrite running_cons.
    destruct (raised (tracker cfg urljoin session)) as [e|].
    + right; exists e; reflexivity.
    + cbn [snd]; apply IH.
Qed.

Lemma cycle_inv (seen : LRU.t) (session : GetOutcome) :
  NoDup (LRU.keys seen) ->
  LRU.maxsize (snd (feed_cycle seen (items (tracker cfg urljoin session))))
  = LRU.maxsize seen
  /\ NoDup (LRU.keys
              (snd (feed_cycle seen (items (tracker cfg urljoin session)))))
  /\ Permutation
       (LRU.keys (snd (feed_cycle seen (items (tracker cfg urljoin session)))))
       (LRU.keys seen).
Proof.
  intros Hnd.
  apply (feed_cycle_spec seen _ Hnd (tracker_written_stdout cfg urljoin session)).
Qed.

(** The loop keeps the keys of the cache it was started with. *)
Lemma running_inv (seen seen' : LRU.t) (world : list GetOutcome) :
  NoDup (LRU.keys seen) ->
  snd (running cfg urljoin seen world) = RUNNING seen' ->
  LRU.maxsize seen' = LRU.maxsize seen
  /\ NoDup (LRU.keys seen')
  /\ Permutation (LRU.keys seen') (LRU.keys seen).
Proof.
  revert seen; induction world as [|session later IH]; intros seen Hnd.
  - cbn; intros E; injection E as <-; auto.
  - rewrite running_cons.
    destruct (raised (tracker cfg urljoin session)) as [e|]; [discriminate|].
    cbn [snd]; intros E.
    destruct (cycle_inv seen session Hnd) as (Hm & Hnd1 & Hp).
    destruct (IH _ Hnd1 E) as (Im & Ind & Ip).
    repeat split; [congruence|exact Ind|now rewrite Ip].
Qed.

(** One more answer extends the run by one cycle. *)
Lemma running_snoc (seen seen' : LRU.t) (world : list GetOutcome)
      (session : GetOutcome) :
  snd (running cfg urljoin seen world) = RUNNING seen' ->
  running cfg urljoin seen (world ++ [session])
  = (fst (running cfg urljoin seen world)
       ++ fst (running cfg urljoin seen' [session]),
     snd (running cfg urljoin seen' [session])).
Proof.
  revert seen; induction world as [|s later IH]; intros seen.
  - change (running cfg urljoin seen []) with (@nil Event, RUNNING seen).
    cbn [fst snd app]; intros E; injection E as <-.
    now destruct (running cfg urljoin seen [session]).
  - rewrite <- app_comm_cons.
    rewrite (running_cons seen s (later ++ [session])), (running_cons seen s later).
    destruct (raised (tracker cfg urljoin s)) as [e|]; [discriminate|].
    cbn [fst snd]; intros E; rewrite (IH _ E); cbn [fst snd].
    now rewrite <- app_assoc, <- app_comm_cons.
Qed.

(** Every iteration opens with the request. *)
Lemma running_opens_with_get (seen : LRU.t) (world : list GetOutcome) :
  sleeps_before_get (fst (running cfg urljoin seen world)) = [].
Proof.
  destruct world as [|session later]; [reflexivity|].
  rewrite running_cons, (proj1 (tracker_after_get cfg urljoin session)).
  cbn [feed_cycle].
  destruct (feed_cycle seen (items (after_get cfg urljoin session))).
  destruct (raised (tracker cfg urljoin session)); reflexivity.
Qed.

End LoopFacts.

Section FeedFacts.

Variable cfg : Config.
Variable urljoin : string -> string -> string.

Lemma running_one (seen : LRU.t) (session : GetOutcome) :
  written Stdout (fst (running cfg urljoin seen [session]))
  = written Stdout
      (fst (feed_cycle seen (items (tracker cfg urljoin session)))).
Proof.
  rewrite running_cons.
  destruct (raised (tracker cfg urljoin session)); [reflexivity|].
  cbn [fst running]; rewrite written_app; cbn [written].
  apply app_nil_r.
Qed.

(** A run that reached the loop went through a completed, non-empty
    seeding sweep. *)
Lemma http_feed_running (session0 : GetOutcome) (world : list GetOutcome)
      (evs : list Event) (seen : LRU.t) :
  http_feed cfg urljoin (session0 :: world) = (evs, RUNNING seen) ->
  let seeded :=
    LRU.new (cache_limit cfg)
            (seed_pairs (items (tracker cfg urljoin session0))) in
  raised (tracker cfg urljoin session0) = None
  /\ LRU.is_empty seeded = false
  /\ evs = effects (items (tracker cfg urljoin session0))
             ++ fst (running cfg urljoin seeded world)
  /\ snd (running cfg urljoin seeded world) = RUNNING seen.
Proof.
  cbn [http_feed]; cbv zeta.
  destruct (raised (tracker cfg urljoin session0)); [discriminate|].
  destruct (LRU.is_empty _); [discriminate|].
  destruct (running cfg urljoin _ world) as [evs' st]; cbn [fst snd].
  intros E; injection E as <- ->; auto.
Qed.

Lemma http_feed_snoc (session0 : GetOutcome) (world : list GetOutcome)
      (evs : list Event) (seen : LRU.t) (session : GetOutcome) :
  http_feed cfg urljoin (session0 :: world) = (evs, RUNNING seen) ->
  http_feed cfg urljoin (session0 :: world ++ [session])
  = (evs ++ fst (running cfg urljoin seen [session]),
     snd (running cfg urljoin seen [session])).
Proof.
  intros H; destruct (http_feed_running _ _ _ _ H) as (Hr & He & -> & Hs).
  cbn [http_feed]; cbv zeta; rewrite Hr, He.
  rewrite (running_snoc cfg urljoin _ _ _ session Hs); cbn [fst snd].
  now rewrite app_assoc.
Qed.

End FeedFacts.

(** * The claims *)

Section ExtractorClaims.

Variable cfg : Config.
Variable urljoin : string -> string -> string.

Lemma extract_rows_unusable (tags : list Html.Node) :
  (forall t, In t tags ->
             Html.NAME_PATH t = "" \/ Html.LINK_PATH t = "") ->
  yielded (items (extract_rows cfg urljoin tags)) = [].
Proof.
  induction tags as [|tag tags IH]; intros H; [reflexivity|].
  rewrite extract_rows_yielded_cons, extract_row_yielded, IH
    by (intros t Ht; apply H; now right).
  destruct (H tag (or_introl eq_refl)) as [-> | ->]; cbn [Text.truthy];
    rewrite ?andb_false_r; reflexivity.
Qed.

Lemma extract_row_usable (tag : Html.Node) :
  Html.NAME_PATH tag <> "" -> Html.LINK_PATH tag <> "" ->
  yielded (items (extract_row cfg urljoin tag))
  = [(Text.strip (Html.NAME_PATH tag),
      urljoin (tracker_url cfg) (Text.strip (Html.LINK_PATH tag)))].
Proof.
  intros Hn Hl; rewrite extract_row_yielded.
  apply TextFacts.truthy_iff in Hn, Hl; now rewrite Hn, Hl.
Qed.

Lemma extractor_split (root : Html.Node) (before after : list Html.Node)
      (tag : Html.Node) :
  Html.CONTENT_PATH root = before ++ tag :: after ->
  yielded (items (extractor cfg urljoin (Html.Parsed root)))
  = yielded (items (extract_rows cfg urljoin (rev after)))
    ++ yielded (items (extract_row cfg urljoin tag))
    ++ yielded (items (extract_rows cfg urljoin (rev before))).
Proof.
  intros E; rewrite extractor_parsed_yielded, E.
  rewrite rev_app_distr; cbn [rev].
  rewrite <- app_assoc, !extract_rows_yielded_app.
  rewrite (extract_rows_yielded_cons cfg urljoin tag []); cbn [extract_rows gen_for items yielded].
  now rewrite app_nil_r.
Qed.

(** C6.  Take any content row of a parsed page, with the rows before and
    after it in the document.  The entries the extractor yields are those
    of the rows after it, then the contribution of the row, then those of
    the rows before it; the row contributes nothing when its name or its
    link is missing (the query gives the empty string), and contributes
    exactly one entry otherwise, whose link is the stripped link joined
    with the tracker base URL.  Nothing is raised in either case. *)
Theorem C6_skip_policy (root : Html.Node) (before after : list Html.Node)
        (tag : Html.Node) :
  Html.CONTENT_PATH root = before ++ tag :: after ->
  yielded (items (extractor cfg urljoin (Html.Parsed root)))
  = yielded (items (extract_rows cfg urljoin (rev after)))
    ++ (if String.eqb (Html.NAME_PATH tag) ""
           || String.eqb (Html.LINK_PATH tag) ""
        then []
        else [(Text.strip (Html.NAME_PATH tag),
               urljoin (tracker_url cfg) (Text.strip (Html.LINK_PATH tag)))])
    ++ yielded (items (extract_rows cfg urljoin (rev before)))
  /\ raised (extractor cfg urljoin (Html.Parsed root)) = None.
Proof.
  intros E; split; [|apply extractor_parsed_raised].
  rewrite (extractor_split root before after tag E), extract_row_yielded.
  destruct (Html.NAME_PATH tag), (Html.LINK_PATH tag); reflexivity.
Qed.

(** C7.  The extractor yields what a pass over the content rows in
    document order would yield, reversed.  In particular the entry of the
    last usable row of the document comes first and the entry of the first
    usable row comes last. *)
Theorem C7_reverse_document_order (root : Html.Node) :
  yielded (items (extractor cfg urljoin (Html.Parsed root)))
  = rev (yielded (items (extract_rows cfg urljoin (Html.CONTENT_PATH root))))
  /\ (forall before tag after,
        Html.CONTENT_PATH root = before ++ tag :: after ->
        Html.NAME_PATH tag <> "" -> Html.LINK_PATH tag <> "" ->
        (forall t, In t after ->
                   Html.NAME_PATH t = "" \/ Html.LINK_PATH t = "") ->
        exists rest,
          yielded (items (extractor cfg urljoin (Html.Parsed root)))
          = (Text.strip (Html.NAME_PATH tag),
             urljoin (tracker_url cfg) (Text.strip (Html.LINK_PATH tag)))
              :: rest)
  /\ (forall before tag after,
        Html.CONTENT_PATH root = before ++ tag :: after ->
        Html.NAME_PATH tag <> "" -> Html.LINK_PATH tag <> "" ->
        (forall t, In t before ->
                   Html.NAME_PATH t = "" \/ Html.LINK_PATH t = "") ->
        exists init,
          yielded (items (extractor cfg urljoin (Html.Parsed root)))
          = init ++ [(Text.strip (Html.NAME_PATH tag),
                      urljoin (tracker_url cfg)
                              (Text.strip (Html.LINK_PATH tag)))]).
Proof.
  split; [|split].
  - rewrite extractor_parsed_yielded; apply extract_rows_yielded_rev.
  - intros before tag after E Hn Hl Hafter.
    rewrite (extractor_split root before after tag E).
    rewrite extract_rows_unusable
      by (intros t Ht; apply Hafter; now apply in_rev).
    rewrite (extract_row_usable tag Hn Hl); cbn [app]; eauto.
  - intros before tag after E Hn Hl Hbefore.
    rewrite (extractor_split root before after tag E).
    rewrite (extract_rows_unusable (rev before))
      by (intros t Ht; apply Hbefore; now apply in_rev).
    rewrite (extract_row_usable tag Hn Hl), app_nil_r; eauto.
Qed.

Lemma extract_rows_In (tags : list Html.Node) (x : Entry) :
  In x (yielded (items (extract_rows cfg urljoin tags)))
  <-> exists tag,
        In tag tags
        /\ Html.NAME_PATH tag <> "" /\ Html.LINK_PATH tag <> ""
        /\ x = (Text.strip (Html.NAME_PATH tag),
                urljoin (tracker_url cfg) (Text.strip (Html.LINK_PATH tag))).
Proof.
  induction tags as [|tag tags IH].
  - simpl; split; [tauto|intros (t & [] & _)].
  - rewrite extract_rows_yielded_cons, in_app_iff, IH, extract_row_yielded.
    split.
    + intros [H|(t & Ht & H)]; [|exists t; split; [now right|exact H]].
      destruct (Text.truthy (Html.NAME_PATH tag)) eqn:Hn;
        destruct (Text.truthy (Html.LINK_PATH tag)) eqn:Hl;
        cbn in H; try tauto.
      destruct H as [<-|[]].
      apply TextFacts.truthy_iff in Hn, Hl.
      exists tag; repeat split; auto; now left.
    + intros (t & [<-|Ht] & Hn & Hl & ->).
      * left; apply TextFacts.truthy_iff in Hn, Hl; rewrite Hn, Hl; now left.
      * right; exists t; auto.
Qed.

(** C10.  Every yielded entry comes from a content row whose raw name and
    raw link are both non-empty, and carries the stripped name and the
    base URL joined with the stripped link; a stripped text starts and
    ends with a non-space character and differs from the raw text by
    whitespace at both ends only.  The presence check reads the raw texts:
    a row whose name is whitespace-only is yielded with the empty name,
    and a row whose link is whitespace-only is yielded with the base URL
    joined with the empty string. *)
Theorem C10_strip_after_presence_check (root : Html.Node) :
  (forall x,
     In x (yielded (items (extractor cfg urljoin (Html.Parsed root)))) ->
     exists tag,
       In tag (Html.CONTENT_PATH root)
       /\ Html.NAME_PATH tag <> "" /\ Html.LINK_PATH tag <> ""
       /\ x = (Text.strip (Html.NAME_PATH tag),
               urljoin (tracker_url cfg) (Text.strip (Html.LINK_PATH tag))))
  /\ (forall s,
        (forall c t, Text.strip s = String c t -> Text.isspace c = false)
        /\ (forall c, Text.last_char (Text.strip s) = Some c ->
                      Text.isspace c = false)
        /\ exists l r,
             s = (l ++ Text.strip s ++ r)%string
             /\ Text.all_space l = true /\ Text.all_space r = true)
  /\ (forall tag,
        In tag (Html.CONTENT_PATH root) ->
        Html.NAME_PATH tag <> "" ->
        Text.all_space (Html.NAME_PATH tag) = true ->
        Html.LINK_PATH tag <> "" ->
        In ("", urljoin (tracker_url cfg) (Text.strip (Html.LINK_PATH tag)))
           (yielded (items (extractor cfg urljoin (Html.Parsed root)))))
  /\ (forall tag,
        In tag (Html.CONTENT_PATH root) ->
        Html.NAME_PATH tag <> "" ->
        Html.LINK_PATH tag <> "" ->
        Text.all_space (Html.LINK_PATH tag) = true ->
        In (Text.strip (Html.NAME_PATH tag), urljoin (tracker_url cfg) "")
           (yielded (items (extractor cfg urljoin (Html.Parsed root))))).
Proof.
  repeat split.
  - intros x; rewrite extractor_parsed_yielded, extract_rows_In.
    intros (tag & Ht & H); exists tag; split; [now apply in_rev|exact H].
  - apply TextFacts.strip_head.
  - apply TextFacts.strip_last.
  - apply TextFacts.strip_split.
  - intros tag Ht Hn Hs Hl.
    rewrite extractor_parsed_yielded, extract_rows_In.
    exists tag; rewrite <- in_rev, (TextFacts.strip_all_space _ Hs); auto.
  - intros tag Ht Hn Hl Hs.
    rewrite extractor_parsed_yielded, extract_rows_In.
    exists tag; rewrite <- in_rev, (TextFacts.strip_all_space _ Hs); auto.
Qed.

End ExtractorClaims.

Section TrackerClaims.

Variable cfg : Config.
Variable urljoin : string -> string -> string.

Lemma errno_ne_iff (e : Exception) :
  errno_ne_ECONNRESET e = true <-> errno e <> Some ECONNRESET.
Proof.
  unfold errno_ne_ECONNRESET; destruct (errno e) as [n|].
  - rewrite negb_true_iff, Z.eqb_neq; split; congruence.
  - split; [discriminate|reflexivity].
Qed.

Lemma after_get_raises (e : Exception) :
  in_HTTP_EXCEPTIONS e = true ->
  items (after_get cfg urljoin (GetRaises e))
  = (if isinstance_OSError e && errno_ne_ECONNRESET e
     then [Effect (EvWrite Stderr
                     ("Connection error: " ++ exc_str e ++ LF)%string)]
     else [])
  /\ raised (after_get cfg urljoin (GetRaises e)) = None.
Proof.
  intros H; cbn [after_get]; rewrite H.
  destruct (isinstance_OSError e && errno_ne_ECONNRESET e); cbn;
    rewrite ?TextFacts.append_assoc; auto.
Qed.

(** X17.  Take a cycle whose request raises one of the exceptions listed
    in [HTTP_EXCEPTIONS], or is answered with a status other than 200, or
    whose body decoding raises a timeout.  The tracker yields no entry and
    raises nothing, and writes nothing on standard output.  It writes on
    the error channel exactly when the request raised an [OSError]
    instance whose [errno] is not [ECONNRESET], and what it writes then is
    the one line [Connection error: <str(e)>]; a connection reset leaves
    the error channel untouched. *)
Theorem tracker_absorbs_failures (session : GetOutcome) :
  (exists e, session = GetRaises e /\ in_HTTP_EXCEPTIONS e = true)
  \/ (exists status text,
        session = GetResponse status text /\ status <> 200%Z)
  \/ (exists e,
        session = GetResponse 200 (TextRaises e)
        /\ exc_class e = TimeoutError) ->
  yielded (items (tracker cfg urljoin session)) = []
  /\ raised (tracker cfg urljoin session) = None
  /\ written Stdout (effects (items (tracker cfg urljoin session))) = []
  /\ (written Stderr (effects (items (tracker cfg urljoin session))) <> []
      <-> exists e, session = GetRaises e
                    /\ isinstance_OSError e = true
                    /\ errno e <> Some ECONNRESET)
  /\ (forall e, session = GetRaises e ->
                isinstance_OSError e = true ->
                errno e <> Some ECONNRESET ->
                written Stderr (effects (items (tracker cfg urljoin session)))
                = [("Connection error: " ++ exc_str e ++ LF)%string])
  /\ (forall e, session = GetRaises e ->
                errno e = Some ECONNRESET ->
                written Stderr (effects (items (tracker cfg urljoin session)))
                = []).
Proof.
  intros H.
  destruct (tracker_after_get cfg urljoin session) as [Hi Hr].
  rewrite Hi, Hr; cbn [yielded effects written].
  split; [|split; [|split; [apply after_get_written_stdout|]]].
  - destruct H as [(e & -> & He)|[(st & tx & -> & Hst)|(e & -> & He)]].
    + rewrite (proj1 (after_get_raises e He)).
      destruct (isinstance_OSError e && errno_ne_ECONNRESET e); reflexivity.
    + cbn [after_get]; apply Z.eqb_neq in Hst; now rewrite Hst.
    + cbn [after_get]; now rewrite He.
  - destruct H as [(e & -> & He)|[(st & tx & -> & Hst)|(e & -> & He)]].
    + apply after_get_raises, He.
    + cbn [after_get]; apply Z.eqb_neq in Hst; now rewrite Hst.
    + cbn [after_get]; now rewrite He.
  - destruct H as [(e & -> & He)|[(st & tx & -> & Hst)|(e & -> & He)]].
    + rewrite (proj1 (after_get_raises e He)).
      destruct (isinstance_OSError e) eqn:Hos;
        destruct (errno_ne_ECONNRESET e) eqn:Hne; cbn [andb effects written].
      * apply errno_ne_iff in Hne.
        repeat split; try discriminate.
        -- intros _; exists e; auto.
        -- intros x E; injection E as <-; reflexivity.
        -- intros x E; injection E as <-; contradiction.
      * assert (Hno : ~ errno e <> Some ECONNRESET)
          by (rewrite <- errno_ne_iff; congruence).
        repeat split; try tauto.
        -- intros (x & E & _ & Hx); injection E as <-; contradiction.
        -- intros x E; injection E as <-; contradiction.
      * repeat split; try tauto.
        -- intros (x & E & Hx & _); injection E as <-; congruence.
        -- intros x E; injection E as <-; congruence.
      * repeat split; try tauto.
        -- intros (x & E & Hx & _); injection E as <-; congruence.
        -- intros x E; injection E as <-; congruence.
    + cbn [after_get]; apply Z.eqb_neq in Hst; rewrite Hst; cbn.
      repeat split; try tauto; try discriminate.
      intros (x & E & _); discriminate.
    + cbn [after_get]; rewrite He, Z.eqb_refl; cbn.
      repeat split; try tauto; try discriminate.
      intros (x & E & _); discriminate.
Qed.

End TrackerClaims.

Section LoopClaims.

Variable cfg : Config.
Variable urljoin : string -> string -> string.

Lemma seed_pairs_nil (its : list Item) :
  seed_pairs its = [] <-> yielded its = [].
Proof.
  unfold seed_pairs; destruct (yielded its); simpl; split; congruence.
Qed.

Lemma seed_pairs_links (its : list Item) :
  map fst (seed_pairs its) = map snd (yielded its).
Proof. unfold seed_pairs; rewrite map_map; reflexivity. Qed.

(** C2.  Let the seeding sweep complete.  When it yields no link, the
    process stops with [SystemExit('Expired credentials')] whatever the
    session would answer later: the trace holds the events of the sweep
    and nothing else, and no further request is made.  When it yields at
    least one link and the cache capacity is positive, the process does
    not abort: it stands at the head of the loop with the seeded cache and
    goes on with the following answers. *)
Theorem C2_abort_on_empty_seed (session : GetOutcome)
        (later : list GetOutcome) :
  let sweep := items (tracker cfg urljoin session) in
  let seeded := LRU.new (cache_limit cfg) (seed_pairs sweep) in
  (raised (tracker cfg urljoin session) = None ->
   yielded sweep = [] ->
   http_feed cfg urljoin (session :: later)
   = (effects sweep, ABORT "Expired credentials"))
  /\ (yielded sweep <> [] ->
      1 <= cache_limit cfg ->
      http_feed cfg urljoin [session] = (effects sweep, RUNNING seeded)
      /\ http_feed cfg urljoin (session :: later)
         = (effects sweep ++ fst (running cfg urljoin seeded later),
            snd (running cfg urljoin seeded later))
      /\ forall msg,
           snd (http_feed cfg urljoin (session :: later)) <> ABORT msg).
Proof.
  cbv zeta; split.
  - intros Hr Hy; cbn [http_feed]; rewrite Hr.
    apply seed_pairs_nil in Hy; rewrite Hy; reflexivity.
  - intros Hy Hc.
    assert (Hr : raised (tracker cfg urljoin session) = None).
    { destruct (raised (tracker cfg urljoin session)) as [e|] eqn:E;
        [|reflexivity].
      exfalso; apply Hy.
      rewrite (proj2 (tracker_after_get cfg urljoin session)) in E.
      rewrite tracker_yielded, (after_get_raised_yielded _ _ _ _ E).
      reflexivity. }
    assert (He : LRU.is_empty
                   (LRU.new (cache_limit cfg)
                      (seed_pairs (items (tracker cfg urljoin session))))
                 = false).
    { destruct (LRU.is_empty _) eqn:E; [|reflexivity].
      apply (LRUFacts.new_is_empty _ _ Hc), seed_pairs_nil in E.
      contradiction. }
    assert (Hgen : forall w,
      http_feed cfg urljoin (session :: w)
      = (effects (items (tracker cfg urljoin session))
           ++ fst (running cfg urljoin
                     (LRU.new (cache_limit cfg)
                        (seed_pairs (items (tracker cfg urljoin session)))) w),
         snd (running cfg urljoin
                (LRU.new (cache_limit cfg)
                   (seed_pairs (items (tracker cfg urljoin session)))) w))).
    { intros w; cbn [http_feed]; rewrite Hr, He.
      now destruct (running cfg urljoin _ w). }
    split; [|split].
    + rewrite Hgen; cbn [running fst snd]; now rewrite app_nil_r.
    + apply Hgen.
    + intros msg; rewrite Hgen; cbn [snd].
      destruct (running_status cfg urljoin
                  (LRU.new (cache_limit cfg)
                     (seed_pairs (items (tracker cfg urljoin session))))
                  later) as [(s & ->)|(e & ->)]; discriminate.
Qed.

(** C3.  The events of the seeding sweep hold no write on standard
    output.  When the process then stands at the head of the loop, the
    keys of its cache are the most recently yielded distinct links of the
    sweep, as many as the capacity allows; they are all links of the
    sweep, and when the sweep has no more distinct links than the capacity
    every link it yielded is in the cache. *)
Theorem C3_seeding_is_silent (session : GetOutcome) :
  let links := map snd (yielded (items (tracker cfg urljoin session))) in
  written Stdout (fst (http_feed cfg urljoin [session])) = []
  /\ forall seen,
       snd (http_feed cfg urljoin [session]) = RUNNING seen ->
       LRU.keys seen = firstn (cache_limit cfg) (LRU.recency links)
       /\ (forall l, In l (LRU.keys seen) -> In l links)
       /\ (List.length (nodup string_dec links) <= cache_limit cfg ->
           forall l, In l links -> In l (LRU.keys seen)).
Proof.
  cbv zeta; split.
  - cbn [http_feed].
    destruct (raised (tracker cfg urljoin session));
      [apply tracker_written_stdout|].
    destruct (LRU.is_empty _); cbn [running fst];
      rewrite ?app_nil_r; apply tracker_written_stdout.
  - intros seen H.
    destruct (http_feed cfg urljoin [session]) as [evs st] eqn:E.
    cbn [snd] in H; subst st.
    destruct (http_feed_running cfg urljoin _ _ _ _ E) as (_ & _ & _ & Hs).
    cbn [running snd] in Hs; injection Hs as <-.
    rewrite LRUFacts.new_keys, seed_pairs_links.
    split; [reflexivity|split].
    + intros l Hl; apply LRUFacts.In_recency.
      rewrite <- (firstn_skipn (cache_limit cfg)); apply in_or_app; now left.
    + intros Hfit l Hl.
      rewrite firstn_all2 by now rewrite LRUFacts.length_recency.
      now apply LRUFacts.In_recency.
Qed.

Lemma seen_NoDup (session0 : GetOutcome) (world : list GetOutcome)
      (evs : list Event) (seen : LRU.t) :
  http_feed cfg urljoin (session0 :: world) = (evs, RUNNING seen) ->
  LRU.maxsize seen = cache_limit cfg
  /\ NoDup (LRU.keys seen)
  /\ Permutation
       (LRU.keys seen)
       (LRU.keys (LRU.new (cache_limit cfg)
                    (seed_pairs (items (tracker cfg urljoin session0))))).
Proof.
  intros H; destruct (http_feed_running cfg urljoin _ _ _ _ H) as (_ & _ & _ & Hs).
  destruct (running_inv cfg urljoin _ _ _ (LRUFacts.NoDup_new _ _) Hs)
    as (Hm & Hnd & Hp).
  rewrite LRUFacts.new_maxsize in Hm; auto.
Qed.

Lemma empty_page_sweep (root : Html.Node) :
  Html.CONTENT_PATH root = [] ->
  items (tracker cfg urljoin (GetResponse 200 (TextOk (Html.Parsed root))))
  = [Effect (EvGet (tracker_url cfg) false);
     Effect (EvSleep (timeout_interval cfg * 10))]
  /\ raised (tracker cfg urljoin (GetResponse 200 (TextOk (Html.Parsed root))))
     = None.
Proof.
  intros E.
  destruct (tracker_after_get cfg urljoin
              (GetResponse 200 (TextOk (Html.Parsed root)))) as [-> ->].
  cbn [after_get Z.eqb Pos.eqb negb].
  unfold extractor; cbn [Html.fromstring]; rewrite E; split; reflexivity.
Qed.

(** C4 (amended).  In the loop, a cycle whose page parses but holds no
    content row performs the request, the cooldown sleep of ten times the
    poll interval inside the extractor, and then the sleep of the poll
    interval that ends every iteration; the cache is left as it was, and
    the next request comes after eleven times the poll interval.  During
    seeding the same page gives the request and the cooldown sleep, after
    which the process stops with [SystemExit('Expired credentials')]. *)
Theorem C4_cooldown_then_interval (seen : LRU.t) (root : Html.Node)
        (later : list GetOutcome) :
  Html.CONTENT_PATH root = [] ->
  let session := GetResponse 200 (TextOk (Html.Parsed root)) in
  running cfg urljoin seen (session :: later)
  = (EvGet (tracker_url cfg) false
       :: EvSleep (timeout_interval cfg * 10)
       :: EvSleep (timeout_interval cfg)
       :: fst (running cfg urljoin seen later),
     snd (running cfg urljoin seen later))
  /\ (exists more,
        delays (fst (running cfg urljoin seen (session :: later)))
        = (11 * timeout_interval cfg)%Z :: more)
  /\ http_feed cfg urljoin (session :: later)
     = ([EvGet (tracker_url cfg) false;
         EvSleep (timeout_interval cfg * 10)],
        ABORT "Expired credentials").
Proof.
  intros E; cbv zeta.
  destruct (empty_page_sweep root E) as [Hi Hr].
  assert (Hrun :
    running cfg urljoin seen
            (GetResponse 200 (TextOk (Html.Parsed root)) :: later)
    = (EvGet (tracker_url cfg) false
         :: EvSleep (timeout_interval cfg * 10)
         :: EvSleep (timeout_interval cfg)
         :: fst (running cfg urljoin seen later),
       snd (running cfg urljoin seen later))).
  { rewrite running_cons, Hr, Hi; reflexivity. }
  split; [exact Hrun|split].
  - rewrite Hrun; cbn [fst delays sleeps_before_get].
    rewrite running_opens_with_get; cbn [total fold_right].
    eexists; f_equal; lia.
  - cbn [http_feed]; rewrite Hr, Hi; reflexivity.
Qed.

Lemma line_feeds_app (a b : string) :
  line_feeds (a ++ b) = line_feeds a + line_feeds b.
Proof.
  induction a as [|c a IH]; [reflexivity|].
  cbn [append line_feeds]; rewrite IH; lia.
Qed.

(** C8 (amended).  Let the process stand at the head of the loop.  The
    cycle run on the next answer writes on standard output one text per
    yielded entry whose link is not a key of the cache, in the order of
    the yields, and nothing else; the text for the entry [(name, url)] is
    [name], the character of code 0, [url] and the character of code 10,
    with nothing added and nothing escaped.  The text therefore holds one
    line feed more than the name and the link hold together: it is a
    single line exactly when neither field holds a line feed. *)
Theorem C8_output_text_format (session0 : GetOutcome)
        (world : list GetOutcome) (evs : list Event) (seen : LRU.t)
        (session : GetOutcome) :
  http_feed cfg urljoin (session0 :: world) = (evs, RUNNING seen) ->
  exists cyc st,
    http_feed cfg urljoin (session0 :: world ++ [session]) = (evs ++ cyc, st)
    /\ written Stdout cyc
       = map (fun x : Entry =>
                (fst x ++ String "000" (snd x ++ String "010" ""))%string)
             (filter (fun x : Entry =>
                        negb (LRU.mem (snd x) (LRU.keys seen)))
                     (yielded (items (tracker cfg urljoin session))))
    /\ forall x : Entry,
         line_feeds (fst x ++ String "000" (snd x ++ String "010" ""))
         = line_feeds (fst x) + line_feeds (snd x) + 1.
Proof.
  intros H.
  exists (fst (running cfg urljoin seen [session])),
         (snd (running cfg urljoin seen [session])).
  split; [now apply http_feed_snoc|split].
  - destruct (seen_NoDup _ _ _ _ H) as (_ & Hnd & _).
    rewrite running_one.
    rewrite (proj1 (feed_cycle_spec seen _ Hnd
                      (tracker_written_stdout cfg urljoin session))).
    apply map_ext; intros x; reflexivity.
  - intros x.
    change (String "000" (snd x ++ String "010" ""))
      with ((String "000" "") ++ (snd x ++ String "010" ""))%string.
    rewrite !line_feeds_app; cbn [line_feeds Ascii.eqb Bool.eqb]; lia.
Qed.


End LoopClaims.

(** ** The claims on the sample listing *)

(** C1.  Seeding sees the listing [A]; the two following cycles see the
    listing [A, B].  The entry B is written in both cycles, and after them
    the cache still holds the link of A only: the loop tests the cache
    and never inserts the link it has just written. *)
Theorem C1_new_entry_emitted_every_cycle :
  let run :=
    http_feed Sample.cfg Sample.urljoin
              [Sample.listing_A; Sample.listing_AB; Sample.listing_AB] in
  written Stdout (fst run)
  = [("B" ++ NUL ++ "https://tracker/t/2" ++ LF)%string;
     ("B" ++ NUL ++ "https://tracker/t/2" ++ LF)%string]
  /\ snd run
     = RUNNING {| LRU.maxsize := 8; LRU.keys := ["https://tracker/t/1"] |}.
Proof. split; vm_compute; reflexivity. Qed.

(** C5.  The request raises [asyncio.TimeoutError()], one of the listed
    failures.  The cycle yields nothing and raises nothing, as claimed,
    but the line [Connection error: ] is written on the error channel: the
    exception is an [OSError] instance and its [errno], [None], is not
    [ECONNRESET].  The timeout of the body decoding, caught on its own, is
    silent. *)
Theorem C5_request_timeout_is_reported :
  let cycle :=
    tracker Sample.cfg Sample.urljoin (GetRaises Sample.request_timeout) in
  in_HTTP_EXCEPTIONS Sample.request_timeout = true
  /\ yielded (items cycle) = []
  /\ raised cycle = None
  /\ written Stderr (effects (items cycle))
     = [("Connection error: " ++ String "010" "")%string]
  /\ written Stderr
       (effects (items (tracker Sample.cfg Sample.urljoin
                          (GetResponse 200
                             (TextRaises Sample.request_timeout)))))
     = [].
Proof. repeat split; vm_compute; reflexivity. Qed.

Lemma C2_abort_on_empty_seed_witness :
  http_feed Sample.cfg Sample.urljoin [Sample.listing_empty; Sample.listing_A]
  = ([EvGet "https://tracker" false; EvSleep 300],
     ABORT "Expired credentials")
  /\ http_feed Sample.cfg Sample.urljoin [Sample.listing_A]
     = ([EvGet "https://tracker" false], RUNNING Sample.seen_A).
Proof.
  split.
  - exact (proj1 (C2_abort_on_empty_seed Sample.cfg Sample.urljoin
                    Sample.listing_empty [Sample.listing_A])
                 eq_refl eq_refl).
  - refine (proj1 (proj2 (C2_abort_on_empty_seed Sample.cfg Sample.urljoin
                            Sample.listing_A [])
                         _ _)).
    + vm_compute; discriminate.
    + vm_compute; repeat constructor.
Defined.

Lemma C3_seeding_is_silent_witness :
  let seen :=
    {| LRU.maxsize := 8;
       LRU.keys := ["https://tracker/t/1"; "https://tracker/t/2";
                    "https://tracker/t/3"] |} in
  written Stdout
    (fst (http_feed Sample.cfg Sample.urljoin [Sample.listing_ABC])) = []
  /\ snd (http_feed Sample.cfg Sample.urljoin [Sample.listing_ABC])
     = RUNNING seen
  /\ forall l,
       In l (map snd (yielded (items (tracker Sample.cfg Sample.urljoin
                                             Sample.listing_ABC)))) ->
       In l (LRU.keys seen).
Proof.
  cbv zeta.
  destruct (C3_seeding_is_silent Sample.cfg Sample.urljoin Sample.listing_ABC)
    as [Hout Hseen].
  split; [exact Hout|split; [reflexivity|]].
  destruct (Hseen {| LRU.maxsize := 8;
                     LRU.keys := ["https://tracker/t/1"; "https://tracker/t/2";
                                  "https://tracker/t/3"] |} eq_refl)
    as (_ & _ & Hin).
  apply Hin; vm_compute; repeat constructor.
Defined.

(** C4, as stated, fails: seeding sees [A], the next page parses but has
    no content row, and a third request follows.  The sleep requested
    between the second and the third request is 330 seconds for a poll
    interval of 30, not the cooldown of 300. *)
Lemma C4_delay_exceeds_cooldown :
  let evs :=
    fst (http_feed Sample.cfg Sample.urljoin
                   [Sample.listing_A; Sample.listing_empty;
                    Sample.listing_A]) in
  delays evs = [0; 330; 30]%Z
  /\ nth 1 (delays evs) 0%Z <> (timeout_interval Sample.cfg * 10)%Z.
Proof. split; vm_compute; [reflexivity|discriminate]. Qed.

Lemma C4_cooldown_then_interval_witness :
  Html.CONTENT_PATH
    (Html.Element "html" [] [Html.Element "body" [] []]) = []
  /\ running Sample.cfg Sample.urljoin Sample.seen_A
             [GetResponse 200
                (TextOk (Html.Parsed
                           (Html.Element "html" []
                                         [Html.Element "body" [] []])));
              Sample.listing_A]
     = ([EvGet "https://tracker" false; EvSleep 300; EvSleep 30;
         EvGet "https://tracker" false; EvSleep 30],
        RUNNING Sample.seen_A).
Proof.
  split; [reflexivity|].
  exact (proj1 (C4_cooldown_then_interval
                  Sample.cfg Sample.urljoin Sample.seen_A
                  (Html.Element "html" [] [Html.Element "body" [] []])
                  [Sample.listing_A] eq_refl)).
Defined.

Lemma tracker_absorbs_failures_witness :
  in_HTTP_EXCEPTIONS Sample.connection_reset = true
  /\ yielded (items (tracker Sample.cfg Sample.urljoin
                             (GetRaises Sample.connection_reset))) = []
  /\ written Stderr (effects (items (tracker Sample.cfg Sample.urljoin
                                (GetRaises Sample.connection_reset)))) = []
  /\ written Stderr (effects (items (tracker Sample.cfg Sample.urljoin
                                (GetRaises Sample.connection_refused))))
     = [("Connection error: [Errno 111] Connect call failed" ++ LF)%string].
Proof.
  split; [reflexivity|].
  destruct (tracker_absorbs_failures Sample.cfg Sample.urljoin
              (GetRaises Sample.connection_reset)) as (Hy & _ & _ & _ & _ & Hr).
  { left; exists Sample.connection_reset; split; reflexivity. }
  destruct (tracker_absorbs_failures Sample.cfg Sample.urljoin
              (GetRaises Sample.connection_refused)) as (_ & _ & _ & _ & Hw & _).
  { left; exists Sample.connection_refused; split; reflexivity. }
  split; [exact Hy|split].
  - exact (Hr Sample.connection_reset eq_refl eq_refl).
  - apply (Hw Sample.connection_refused eq_refl eq_refl).
    vm_compute; discriminate.
Defined.

Lemma C6_skip_policy_witness :
  let root :=
    Sample.table [Sample.row "A" "/t/1"; Sample.row_without_link "B";
                  Sample.row " C " " /t/3 "] in
  Html.CONTENT_PATH root
  = [Sample.row "A" "/t/1"] ++ Sample.row_without_link "B"
      :: [Sample.row " C " " /t/3 "]
  /\ yielded (items (extractor Sample.cfg Sample.urljoin (Html.Parsed root)))
     = [("C", "https://tracker/t/3"); ("A", "https://tracker/t/1")].
Proof.
  cbv zeta; split; [reflexivity|].
  exact (proj1 (C6_skip_policy Sample.cfg Sample.urljoin
                  (Sample.table [Sample.row "A" "/t/1";
                                 Sample.row_without_link "B";
                                 Sample.row " C " " /t/3 "])
                  [Sample.row "A" "/t/1"] [Sample.row " C " " /t/3 "]
                  (Sample.row_without_link "B") eq_refl)).
Defined.

Lemma C7_reverse_document_order_witness :
  let root :=
    Sample.table [Sample.row "A" "/t/1"; Sample.row "B" "/t/2";
                  Sample.row_without_link "C"] in
  exists rest,
    yielded (items (extractor Sample.cfg Sample.urljoin (Html.Parsed root)))
    = ("B", "https://tracker/t/2") :: rest.
Proof.
  cbv zeta.
  refine (proj1 (proj2 (C7_reverse_document_order
                          Sample.cfg Sample.urljoin
                          (Sample.table [Sample.row "A" "/t/1";
                                         Sample.row "B" "/t/2";
                                         Sample.row_without_link "C"])))
                [Sample.row "A" "/t/1"] (Sample.row "B" "/t/2")
                [Sample.row_without_link "C"] eq_refl _ _ _).
  - vm_compute; discriminate.
  - vm_compute; discriminate.
  - intros t [<-|[]]; right; reflexivity.
Defined.

(** C8, as stated, fails: seeding sees [A]; the next page lists a topic
    whose title holds a line feed.  The one entry of that cycle is written
    as a text with two line feeds, that is as two lines. *)
Lemma C8_name_with_line_feed :
  let name := ("Foo" ++ String "010" "Bar")%string in
  let out :=
    written Stdout
      (fst (http_feed Sample.cfg Sample.urljoin
                      [Sample.listing_A;
                       Sample.ok (Sample.page [Sample.row name "/t/5"])])) in
  out = [("Foo" ++ String "010"
            ("Bar" ++ String "000"
               ("https://tracker/t/5" ++ String "010" "")))%string]
  /\ map line_feeds out = [2].
Proof. split; vm_compute; reflexivity. Qed.

Lemma C8_output_text_format_witness :
  http_feed Sample.cfg Sample.urljoin [Sample.listing_A]
  = ([EvGet "https://tracker" false], RUNNING Sample.seen_A)
  /\ exists cyc st,
       http_feed Sample.cfg Sample.urljoin
                 ([Sample.listing_A] ++ [Sample.listing_AB])
       = ([EvGet "https://tracker" false] ++ cyc, st)
       /\ written Stdout cyc
          = [("B" ++ String "000"
                ("https://tracker/t/2" ++ String "010" ""))%string].
Proof.
  split; [reflexivity|].
  destruct (C8_output_text_format
              Sample.cfg Sample.urljoin Sample.listing_A []
              [EvGet "https://tracker" false] Sample.seen_A Sample.listing_AB
              eq_refl) as (cyc & st & Hrun & Hout & _).
  exists cyc, st; split; [exact Hrun|exact Hout].
Defined.



Lemma C10_strip_after_presence_check_witness :
  let root := Sample.table [Sample.row "   " "/t/9"] in
  Html.NAME_PATH (Sample.row "   " "/t/9") = "   "
  /\ In ("", "https://tracker/t/9")
        (yielded (items (extractor Sample.cfg Sample.urljoin
                                   (Html.Parsed root)))).
Proof.
  cbv zeta; split; [reflexivity|].
  refine (proj1 (proj2 (proj2 (C10_strip_after_presence_check
                                 Sample.cfg Sample.urljoin
                                 (Sample.table [Sample.row "   " "/t/9"]))))
                (Sample.row "   " "/t/9") _ _ _ _).
  - left; reflexivity.
  - vm_compute; discriminate.
  - reflexivity.
  - vm_compute; discriminate.
Defined.

(** * Further properties of the module *)

(** ** The queries, step by step *)

Module XPathFacts.
Import Html XPath.

(** Induction over a tree and the trees below it. *)
Lemma Node_forest_ind (P : Node -> Prop) :
  (forall s, P (Text s)) ->
  (forall tag attrs children,
      Forall P children -> P (Element tag attrs children)) ->
  forall n, P n.
Proof.
  intros Htext Helem.
  fix IH 1; intros [s|tag attrs children]; [apply Htext|].
  apply Helem.
  revert children; fix IHl 1; intros [|c children]; constructor;
    [apply IH|apply IHl].
Qed.

Lemma self_in_descendant_or_self (n : Node) : In n (descendant_or_self n).
Proof. destruct n; left; reflexivity. Qed.

Lemma descendant_or_self_cases (n m : Node) :
  In m (descendant_or_self n) <-> m = n \/ In m (descendant n).
Proof.
  unfold descendant; destruct n as [s|tag attrs children]; simpl;
    split; intros [H|H]; auto.
Qed.

Lemma descendant_or_self_trans (n m a : Node) :
  In m (descendant_or_self n) -> In a (descendant_or_self m) ->
  In a (descendant_or_self n).
Proof.
  revert m a; induction n as [s|tag attrs children IH] using Node_forest_ind;
    intros m a Hm Ha.
  - destruct Hm as [<-|[]]; exact Ha.
  - apply descendant_or_self_cases in Hm as [->|Hm]; [exact Ha|].
    apply descendant_or_self_cases; right.
    unfold descendant in *; cbn [children_of] in *.
    apply in_flat_map in Hm as (c & Hc & Hm).
    apply in_flat_map; exists c; split; [exact Hc|].
    rewrite Forall_forall in IH; exact (IH c Hc m a Hm Ha).
Qed.

Lemma child_in_descendant_or_self (tag : string) (attrs : list (string * string))
      (children : list Node) (c m : Node) :
  In c children -> In m (descendant_or_self c) ->
  In m (descendant_or_self (Element tag attrs children)).
Proof.
  intros Hc Hm; apply descendant_or_self_cases; right.
  unfold descendant; cbn [children_of]; apply in_flat_map; eauto.
Qed.

(** Below a matching cell every matching anchor is selected. *)
Lemma name_nodes_inside (n a : Node) :
  In a (name_nodes true n)
  <-> In a (descendant_or_self n) /\ is_name_anchor a = true.
Proof.
  revert a; induction n as [s|tag attrs children IH] using Node_forest_ind;
    intros a.
  - simpl; split; [tauto|].
    intros [[<-|[]] H]; discriminate.
  - rewrite Forall_forall in IH.
    cbn [name_nodes orb andb]; rewrite in_app_iff, in_flat_map.
    rewrite descendant_or_self_cases; unfold descendant; cbn [children_of].
    rewrite in_flat_map; unfold is_name_anchor.
    split.
    + intros [H|(c & Hc & H)].
      * destruct (is_tag_with_class "a" "tLink" (Element tag attrs children))
          eqn:E; [|contradiction].
        destruct H as [<-|[]]; auto.
      * apply IH in H as [H1 H2]; [|exact Hc]; split; [right; eauto|exact H2].
    + intros [[->|(c & Hc & H)] Ha].
      * left; rewrite Ha; now left.
      * right; exists c; split; [exact Hc|]; apply IH; auto.
Qed.

Lemma name_nodes_outside (n a : Node) :
  In a (name_nodes false n)
  <-> is_name_anchor a = true
      /\ exists td, In td (descendant_or_self n)
                    /\ is_name_cell td = true /\ In a (descendant td).
Proof.
  revert a; induction n as [s|tag attrs children IH] using Node_forest_ind;
    intros a.
  - simpl; split; [tauto|].
    intros (_ & td & [<-|[]] & H & _); discriminate.
  - rewrite Forall_forall in IH.
    cbn [name_nodes orb andb app]; rewrite in_flat_map.
    fold (is_name_cell (Element tag attrs children)).
    split.
    + intros (c & Hc & H).
      destruct (is_name_cell (Element tag attrs children)) eqn:E.
      * apply name_nodes_inside in H as [H1 H2]; split; [exact H2|].
        exists (Element tag attrs children); split; [left; reflexivity|].
        split; [exact E|].
        unfold descendant; cbn [children_of]; apply in_flat_map; eauto.
      * apply IH in H as (Ha & td & Htd & Hcell & Hin); [|exact Hc].
        split; [exact Ha|]; exists td; split; [|auto].
        apply descendant_or_self_cases; right.
        unfold descendant; cbn [children_of]; apply in_flat_map; eauto.
    + intros (Ha & td & Htd & Hcell & Hin).
      apply descendant_or_self_cases in Htd as [->|Htd].
      * rewrite Hcell.
        unfold descendant in Hin; cbn [children_of] in Hin.
        apply in_flat_map in Hin as (c & Hc & Hin).
        exists c; split; [exact Hc|]; apply name_nodes_inside; auto.
      * unfold descendant in Htd; cbn [children_of] in Htd.
        apply in_flat_map in Htd as (c & Hc & Htd).
        exists c; split; [exact Hc|].
        destruct (is_name_cell (Element tag attrs children)).
        -- apply name_nodes_inside; split; [|exact Ha].
           apply (descendant_or_self_trans c td a Htd).
           apply descendant_or_self_cases; now right.
        -- apply IH; [exact Hc|]; split; [exact Ha|]; eauto.
Qed.

Lemma link_nodes_spec (under_td : bool) (n : Node) (h : string) :
  In h (link_nodes under_td n)
  <-> (under_td = true /\ is_download_anchor n = true /\ In h (href_of n))
      \/ exists td a,
           In td (descendant_or_self n) /\ is_link_cell td = true
           /\ In a (children_of td) /\ is_download_anchor a = true
           /\ In h (href_of a).
Proof.
  revert under_td h;
    induction n as [s|tag attrs children IH] using Node_forest_ind;
    intros under_td h.
  - simpl; split; [tauto|].
    intros [(_ & H & _)|(td & a & [<-|[]] & H & _)]; discriminate.
  - rewrite Forall_forall in IH.
    cbn [link_nodes]; rewrite in_app_iff, in_flat_map.
    fold (is_link_cell (Element tag attrs children)).
    split.
    + intros [H|(c & Hc & H)].
      * left.
        destruct under_td; [|contradiction].
        destruct (is_download_anchor (Element tag attrs children));
          [auto|contradiction].
      * right.
        apply IH in H as [(Hcell & Ha & Hh)|(td & a & Htd & H)];
          [| |exact Hc].
        -- exists (Element tag attrs children), c.
           split; [left; reflexivity|auto].
        -- exists td, a; split; [|exact H].
           apply child_in_descendant_or_self with (c := c); assumption.
    + intros [(-> & Ha & Hh)|(td & a & Htd & Hcell & Ha & Hdl & Hh)].
      * left; cbn [andb]; now rewrite Ha.
      * right.
        apply descendant_or_self_cases in Htd as [->|Htd].
        -- exists a; split; [exact Ha|].
           apply IH; [exact Ha|]; left; auto.
        -- unfold descendant in Htd; cbn [children_of] in Htd.
           apply in_flat_map in Htd as (c & Hc & Htd).
           exists c; split; [exact Hc|].
           apply IH; [exact Hc|]; right; exists td, a; auto.
Qed.

Lemma name_list_spec (tag a : Node) :
  In a (flat_map (name_nodes false) (children_of tag))
  <-> exists td,
        In td (descendant tag) /\ is_name_cell td = true
        /\ In a (descendant td) /\ is_name_anchor a = true.
Proof.
  rewrite in_flat_map; unfold descendant at 1; split.
  - intros (c & Hc & H).
    apply name_nodes_outside in H as (Ha & td & Htd & Hcell & Hin).
    exists td; rewrite in_flat_map; eauto 6.
  - intros (td & Htd & Hcell & Hin & Ha).
    apply in_flat_map in Htd as (c & Hc & Htd).
    exists c; split; [exact Hc|]; apply name_nodes_outside; eauto.
Qed.

Lemma link_list_spec (tag : Node) (h : string) :
  In h (flat_map (link_nodes false) (children_of tag))
  <-> exists td a,
        In td (descendant tag) /\ is_link_cell td = true
        /\ In a (children_of td) /\ is_download_anchor a = true
        /\ In h (href_of a).
Proof.
  rewrite in_flat_map; unfold descendant at 1; split.
  - intros (c & Hc & H).
    apply link_nodes_spec in H as [(E & _)|(td & a & Htd & H)];
      [discriminate|].
    exists td, a; rewrite in_flat_map; eauto.
  - intros (td & a & Htd & H).
    apply in_flat_map in Htd as (c & Hc & Htd).
    exists c; split; [exact Hc|]; apply link_nodes_spec; right; eauto.
Qed.

Lemma NAME_PATH_cases (tag : Node) :
  (flat_map (name_nodes false) (children_of tag) = []
   /\ NAME_PATH tag = "")
  \/ exists a, In a (flat_map (name_nodes false) (children_of tag))
               /\ NAME_PATH tag = string_value a.
Proof.
  unfold NAME_PATH.
  destruct (flat_map (name_nodes false) (children_of tag)) as [|a l];
    [left; auto|right; exists a; split; [left|]; reflexivity].
Qed.

Lemma LINK_PATH_cases (tag : Node) :
  (flat_map (link_nodes false) (children_of tag) = []
   /\ LINK_PATH tag = "")
  \/ exists h, In h (flat_map (link_nodes false) (children_of tag))
               /\ LINK_PATH tag = h.
Proof.
  unfold LINK_PATH.
  destruct (flat_map (link_nodes false) (children_of tag)) as [|h l];
    [left; auto|right; exists h; split; [left|]; reflexivity].
Qed.

End XPathFacts.

(** X1.  The name query, read step by step.  When some anchor whose class
    contains [tLink] lies below a cell [td] whose class contains [tLeft]
    below the row, the name of the row is the text of such an anchor;
    when there is none, the name is the empty string. *)
Theorem NAME_PATH_by_steps (tag : Html.Node) :
  ((exists td a,
       In td (XPath.descendant tag) /\ XPath.is_name_cell td = true
       /\ In a (XPath.descendant td) /\ XPath.is_name_anchor a = true) ->
   exists td a,
     In td (XPath.descendant tag) /\ XPath.is_name_cell td = true
     /\ In a (XPath.descendant td) /\ XPath.is_name_anchor a = true
     /\ Html.NAME_PATH tag = Html.string_value a)
  /\ ((forall td a,
         In td (XPath.descendant tag) -> XPath.is_name_cell td = true ->
         In a (XPath.descendant td) -> XPath.is_name_anchor a = true ->
         False) ->
      Html.NAME_PATH tag = "").
Proof.
  split.
  - intros (td & a & H).
    destruct (XPathFacts.NAME_PATH_cases tag) as [[E _]|(a0 & Hin & E)].
    + assert (Hin : In a (flat_map (Html.name_nodes false)
                                   (Html.children_of tag)))
        by (apply XPathFacts.name_list_spec; eauto).
      rewrite E in Hin; contradiction.
    + apply XPathFacts.name_list_spec in Hin
        as (td0 & H1 & H2 & H3 & H4).
      exists td0, a0; auto 6.
  - intros Hnone.
    destruct (XPathFacts.NAME_PATH_cases tag) as [[_ E]|(a0 & Hin & _)];
      [exact E|].
    apply XPathFacts.name_list_spec in Hin as (td0 & H1 & H2 & H3 & H4).
    destruct (Hnone td0 a0 H1 H2 H3 H4).
Qed.

(** X2.  The link query, read step by step.  When some cell [td] whose
    class contains [small] below the row has a child anchor that is
    titled [Download] or whose class contains [tr-dl] and that carries an
    [href], the link of the row is such an [href]; when there is none,
    the link is the empty string.  An anchor deeper below the cell does
    not count. *)
Theorem LINK_PATH_by_steps (tag : Html.Node) :
  ((exists td a h,
       In td (XPath.descendant tag) /\ XPath.is_link_cell td = true
       /\ In a (Html.children_of td) /\ Html.is_download_anchor a = true
       /\ In h (Html.href_of a)) ->
   exists td a,
     In td (XPath.descendant tag) /\ XPath.is_link_cell td = true
     /\ In a (Html.children_of td) /\ Html.is_download_anchor a = true
     /\ In (Html.LINK_PATH tag) (Html.href_of a))
  /\ ((forall td a h,
         In td (XPath.descendant tag) -> XPath.is_link_cell td = true ->
         In a (Html.children_of td) -> Html.is_download_anchor a = true ->
         In h (Html.href_of a) -> False) ->
      Html.LINK_PATH tag = "").
Proof.
  split.
  - intros (td & a & h & H).
    destruct (XPathFacts.LINK_PATH_cases tag) as [[E _]|(h0 & Hin & E)].
    + assert (Hin : In h (flat_map (Html.link_nodes false)
                                   (Html.children_of tag)))
        by (apply XPathFacts.link_list_spec; eauto).
      rewrite E in Hin; contradiction.
    + apply XPathFacts.link_list_spec in Hin
        as (td0 & a0 & H1 & H2 & H3 & H4 & H5).
      exists td0, a0; rewrite E; auto 6.
  - intros Hnone.
    destruct (XPathFacts.LINK_PATH_cases tag) as [[_ E]|(h0 & Hin & _)];
      [exact E|].
    apply XPathFacts.link_list_spec in Hin
      as (td0 & a0 & H1 & H2 & H3 & H4 & H5).
    destruct (Hnone td0 a0 h0 H1 H2 H3 H4 H5).
Qed.

(** ** The extractor *)

Section ExtractorProperties.

Variable cfg : Config.
Variable urljoin : string -> string -> string.

Lemma extract_rows_yielded_map (tags : list Html.Node) :
  yielded (items (extract_rows cfg urljoin tags))
  = map (fun tag =>
           (Text.strip (Html.NAME_PATH tag),
            urljoin (tracker_url cfg) (Text.strip (Html.LINK_PATH tag))))
        (filter XPath.usable tags).
Proof.
  induction tags as [|tag tags IH]; [reflexivity|].
  rewrite extract_rows_yielded_cons, extract_row_yielded, IH.
  cbn [filter]; unfold XPath.usable at 2.
  destruct (Text.truthy _ && Text.truthy _); reflexivity.
Qed.

Lemma extract_rows_items_unusable (tags : list Html.Node) :
  (forall tag, In tag tags -> XPath.usable tag = false) ->
  items (extract_rows cfg urljoin tags) = [].
Proof.
  induction tags as [|tag tags IH]; intros H; [reflexivity|].
  rewrite (proj1 (extract_rows_cons cfg urljoin tag tags)).
  rewrite IH by (intros t Ht; apply H; now right).
  unfold extract_row.
  specialize (H tag (or_introl eq_refl)); unfold XPath.usable in H.
  now rewrite H.
Qed.

(** X3.  Where an entry comes from.  Every entry the extractor yields is
    read from one row [tr] of the page whose class contains [hl-tr]: its
    name is the stripped text of an anchor selected by the name query in
    that row, and its link is the base URL joined with the stripped
    [href] of a download anchor selected by the link query in the same
    row. *)
Theorem extractor_provenance (root : Html.Node) (name url : string) :
  In (name, url) (yielded (items (extractor cfg urljoin (Html.Parsed root)))) ->
  exists tag,
    In tag (Html.descendant_or_self root)
    /\ Html.is_tag_with_class "tr" "hl-tr" tag = true
    /\ (exists td a,
          In td (XPath.descendant tag) /\ XPath.is_name_cell td = true
          /\ In a (XPath.descendant td) /\ XPath.is_name_anchor a = true
          /\ name = Text.strip (Html.string_value a))
    /\ (exists td a h,
          In td (XPath.descendant tag) /\ XPath.is_link_cell td = true
          /\ In a (Html.children_of td) /\ Html.is_download_anchor a = true
          /\ In h (Html.href_of a)
          /\ url = urljoin (tracker_url cfg) (Text.strip h)).
Proof.
  rewrite extractor_parsed_yielded, extract_rows_yielded_map, in_map_iff.
  intros (tag & E & Hin); injection E as <- <-.
  apply filter_In in Hin as [Hin Hus].
  apply in_rev in Hin; unfold Html.CONTENT_PATH in Hin.
  apply filter_In in Hin as [Hin Hrow].
  apply andb_true_iff in Hus as [Hn Hl].
  exists tag; split; [exact Hin|split; [exact Hrow|split]].
  - destruct (XPathFacts.NAME_PATH_cases tag) as [[_ E]|(a & Ha & E)];
      [rewrite E in Hn; discriminate|].
    apply XPathFacts.name_list_spec in Ha as (td & H1 & H2 & H3 & H4).
    exists td, a; rewrite E; auto 6.
  - destruct (XPathFacts.LINK_PATH_cases tag) as [[_ E]|(h & Hh & E)];
      [rewrite E in Hl; discriminate|].
    apply XPathFacts.link_list_spec in Hh as (td & a & H1 & H2 & H3 & H4 & H5).
    exists td, a, h; rewrite E; auto 7.
Qed.

Lemma filter_usable_nil (tags : list Html.Node) :
  filter XPath.usable tags = []
  <-> forall tag, In tag tags -> XPath.usable tag = false.
Proof.
  induction tags as [|t l IH]; cbn [filter].
  - split; [intros _ tag []|reflexivity].
  - destruct (XPath.usable t) eqn:Hu.
    + split; [discriminate|].
      intros H; rewrite (H t (or_introl eq_refl)) in Hu; discriminate.
    + rewrite IH; split.
      * intros H tag [<-|Hin]; auto.
      * intros H tag Hin; apply H; now right.
Qed.

Lemma extractor_nothing_iff (root : Html.Node) :
  yielded (items (extractor cfg urljoin (Html.Parsed root))) = []
  <-> forall tag, In tag (Html.CONTENT_PATH root) ->
                  XPath.usable tag = false.
Proof.
  rewrite extractor_parsed_yielded, extract_rows_yielded_rev.
  rewrite extract_rows_yielded_map, <- filter_usable_nil.
  split.
  - intros E; apply (f_equal (@rev Entry)) in E.
    rewrite rev_involutive in E; cbn [rev] in E.
    now destruct (filter XPath.usable (Html.CONTENT_PATH root)).
  - now intros ->.
Qed.

(** X4.  One entry per usable row.  The extractor yields as many entries
    as the page has content rows with a non-empty name and a non-empty
    link, hence never more than it has content rows; it yields nothing
    exactly when no content row is usable. *)
Theorem extractor_count (root : Html.Node) :
  List.length (yielded (items (extractor cfg urljoin (Html.Parsed root))))
  = List.length (filter XPath.usable (Html.CONTENT_PATH root))
  /\ List.length (yielded (items (extractor cfg urljoin (Html.Parsed root))))
     <= List.length (Html.CONTENT_PATH root)
  /\ (yielded (items (extractor cfg urljoin (Html.Parsed root))) = []
      <-> forall tag, In tag (Html.CONTENT_PATH root) ->
                      XPath.usable tag = false).
Proof.
  split; [|split; [|apply extractor_nothing_iff]].
  - rewrite extractor_parsed_yielded, extract_rows_yielded_rev.
    now rewrite length_rev, extract_rows_yielded_map, length_map.
  - rewrite extractor_parsed_yielded, extract_rows_yielded_rev.
    rewrite length_rev, extract_rows_yielded_map, length_map.
    apply filter_length_le.
Qed.

(** X5.  When the extractor sleeps, and what it lets through.  A page
    that parses and holds no content row makes the extractor await the
    cooldown of ten poll intervals and nothing else.  A page on which
    [fromstring] raises [ParserError] or [XMLSyntaxError], and a page
    whose content rows all lack a name or a link, make it do nothing at
    all and return: no sleep, no entry.  What [fromstring] raises beyond
    those two classes is not caught: the extractor raises it, having done
    nothing.  A sleep never comes with an entry. *)
Theorem extractor_cooldown_cases (html : Html.Page) :
  (html = Html.Unparsable ->
   items (extractor cfg urljoin html) = []
   /\ raised (extractor cfg urljoin html) = None)
  /\ (forall e,
        html = Html.Unsupported e ->
        items (extractor cfg urljoin html) = []
        /\ raised (extractor cfg urljoin html) = Some e)
  /\ (forall root,
        html = Html.Parsed root -> Html.CONTENT_PATH root = [] ->
        items (extractor cfg urljoin html)
        = [Effect (EvSleep (timeout_interval cfg * 10))]
        /\ raised (extractor cfg urljoin html) = None)
  /\ (forall root,
        html = Html.Parsed root -> Html.CONTENT_PATH root <> [] ->
        effects (items (extractor cfg urljoin html)) = []
        /\ ((forall tag, In tag (Html.CONTENT_PATH root) ->
                         XPath.usable tag = false) ->
            items (extractor cfg urljoin html) = []
            /\ raised (extractor cfg urljoin html) = None))
  /\ (effects (items (extractor cfg urljoin html)) <> [] ->
      yielded (items (extractor cfg urljoin html)) = []).
Proof.
  split; [intros ->; split; reflexivity|].
  split; [intros e ->; split; reflexivity|].
  split; [intros root -> E; unfold extractor; cbn [Html.fromstring];
          rewrite E; split; reflexivity|].
  split.
  - intros root -> Hne.
    split.
    + unfold extractor; cbn [Html.fromstring].
      destruct (Html.CONTENT_PATH root) as [|t l] eqn:E; [contradiction|].
      apply extract_rows_effects.
    + intros H; split; [|apply extractor_parsed_raised].
      unfold extractor; cbn [Html.fromstring].
      destruct (Html.CONTENT_PATH root) as [|t l] eqn:E; [contradiction|].
      apply extract_rows_items_unusable.
      intros tag Ht; apply H; now apply in_rev.
  - destruct html as [|root|x]; [intros H; now destruct H| |intros H; now destruct H].
    unfold extractor; cbn [Html.fromstring].
    destruct (Html.CONTENT_PATH root) as [|t l]; [reflexivity|].
    rewrite extract_rows_effects; intros H; now destruct H.
Qed.

End ExtractorProperties.

(** ** The tracker client *)

Section TrackerProperties.

Variable cfg : Config.
Variable urljoin : string -> string -> string.

Lemma after_get_raised_when (session : GetOutcome) (e : Exception) :
  (session = GetRaises e /\ in_HTTP_EXCEPTIONS e = false)
  \/ (session = GetResponse 200 (TextRaises e)
      /\ exc_class e <> TimeoutError)
  \/ session = GetResponse 200 (TextOk (Html.Unsupported e)) ->
  raised (after_get cfg urljoin session) = Some e
  /\ items (after_get cfg urljoin session) = [].
Proof.
  intros [[-> H]|[[-> H]| ->]]; cbn [after_get Z.eqb Pos.eqb negb].
  - rewrite H; split; reflexivity.
  - destruct (exc_class e); try (split; reflexivity); contradiction.
  - split; reflexivity.
Qed.

Lemma tracker_raised_when (session : GetOutcome) (e : Exception) :
  (session = GetRaises e /\ in_HTTP_EXCEPTIONS e = false)
  \/ (session = GetResponse 200 (TextRaises e)
      /\ exc_class e <> TimeoutError)
  \/ session = GetResponse 200 (TextOk (Html.Unsupported e)) ->
  raised (tracker cfg urljoin session) = Some e
  /\ items (tracker cfg urljoin session)
     = [Effect (EvGet (tracker_url cfg) false)].
Proof.
  intros H; destruct (after_get_raised_when session e H) as [Hr Hi].
  destruct (tracker_after_get cfg urljoin session) as [Ei Er].
  now rewrite Er, Ei, Hr, Hi.
Qed.

(** X6.  What the tracker lets through.  The tracker raises, and raises
    the very exception it met, in each of these cases: the request raised
    an exception that is no instance of the classes of [HTTP_EXCEPTIONS];
    the body decoding raised something other than a timeout (a payload
    error at that point is not absorbed, although the same class is
    absorbed around the request); [fromstring] raised something other than
    [ParserError] and [XMLSyntaxError] on the decoded body.  In each case
    the tracker has done nothing but the request. *)
Theorem tracker_lets_through (session : GetOutcome) (e : Exception) :
  (session = GetRaises e /\ in_HTTP_EXCEPTIONS e = false)
  \/ (session = GetResponse 200 (TextRaises e)
      /\ exc_class e <> TimeoutError)
  \/ session = GetResponse 200 (TextOk (Html.Unsupported e)) ->
  raised (tracker cfg urljoin session) = Some e
  /\ items (tracker cfg urljoin session)
     = [Effect (EvGet (tracker_url cfg) false)]
  /\ yielded (items (tracker cfg urljoin session)) = []
  /\ written Stderr (effects (items (tracker cfg urljoin session))) = [].
Proof.
  intros H; destruct (tracker_raised_when session e H) as [Hr Hi].
  rewrite Hr, Hi; auto.
Qed.

Lemma after_get_yielded_cases (session : GetOutcome) :
  yielded (items (after_get cfg urljoin session)) <> [] ->
  exists html, session = GetResponse 200 (TextOk html).
Proof.
  destruct session as [x|status text]; cbn [after_get].
  - destruct (in_HTTP_EXCEPTIONS x); [|intros H; now destruct H].
    destruct (isinstance_OSError x && errno_ne_ECONNRESET x);
      intros H; now destruct H.
  - destruct (Z.eqb status 200) eqn:Hs; cbn [negb];
      [|intros H; now destruct H].
    apply Z.eqb_eq in Hs; subst status.
    destruct text as [html|x]; [eauto|].
    destruct (exc_class x); intros H; now destruct H.
Qed.

Lemma tracker_ok_items (html : Html.Page) :
  items (tracker cfg urljoin (GetResponse 200 (TextOk html)))
  = Effect (EvGet (tracker_url cfg) false)
      :: items (extractor cfg urljoin html).
Proof. rewrite (proj1 (tracker_after_get cfg urljoin _)); reflexivity. Qed.

Lemma tracker_yielded_cases (session : GetOutcome) :
  yielded (items (tracker cfg urljoin session)) <> [] ->
  exists root tag,
    session = GetResponse 200 (TextOk (Html.Parsed root))
    /\ In tag (Html.CONTENT_PATH root) /\ XPath.usable tag = true.
Proof.
  rewrite tracker_yielded; intros H.
  destruct (after_get_yielded_cases session H) as [html ->].
  cbn [after_get Z.eqb Pos.eqb negb] in H.
  destruct html as [|root|x]; [now destruct H| |now destruct H].
  exists root.
  assert (Hex : ~ forall tag, In tag (Html.CONTENT_PATH root) ->
                              XPath.usable tag = false)
    by (intros Hall; apply H, extractor_nothing_iff, Hall).
  clear H.
  assert (Hsome : exists tag, In tag (Html.CONTENT_PATH root)
                              /\ XPath.usable tag = true).
  { induction (Html.CONTENT_PATH root) as [|t l IH].
    - exfalso; apply Hex; intros tag [].
    - destruct (XPath.usable t) eqn:Hu; [exists t; split; [now left|auto]|].
      destruct IH as (tag & Hin & Htag).
      + intros Hall; apply Hex; intros tag [<-|Hin]; auto.
      + exists tag; split; [now right|exact Htag]. }
  destruct Hsome as (tag & Hin & Hu); exists tag; auto.
Qed.

(** X7.  When the tracker yields.  On a decoded 200 answer the tracker
    performs the request and then does what the extractor does on the
    page, forwarding its entries unchanged and in order.  It yields an
    entry only then: never on a failed request, on another status or on a
    body that could not be decoded, and only when the page parses and has
    a usable content row. *)
Theorem tracker_yields_only_on_ok (session : GetOutcome) :
  (forall html,
      session = GetResponse 200 (TextOk html) ->
      items (tracker cfg urljoin session)
      = Effect (EvGet (tracker_url cfg) false)
          :: items (extractor cfg urljoin html))
  /\ (yielded (items (tracker cfg urljoin session)) <> [] ->
      exists root tag,
        session = GetResponse 200 (TextOk (Html.Parsed root))
        /\ In tag (Html.CONTENT_PATH root) /\ XPath.usable tag = true).
Proof.
  split; [intros html ->; apply tracker_ok_items|apply tracker_yielded_cases].
Qed.

End TrackerProperties.

(** ** Traces *)

Lemma requests_app (a b : list Event) :
  requests (a ++ b) = requests a ++ requests b.
Proof.
  induction a as [|[u r|d|s d] a IH]; simpl; rewrite ?IH; reflexivity.
Qed.

Lemma sleeps_app (a b : list Event) : sleeps (a ++ b) = sleeps a ++ sleeps b.
Proof.
  induction a as [|[u r|d|s d] a IH]; simpl; rewrite ?IH; reflexivity.
Qed.

Lemma sleeps_before_get_app (a b : list Event) :
  requests a = [] ->
  sleeps_before_get (a ++ b) = sleeps a ++ sleeps_before_get b.
Proof.
  induction a as [|[u r|d|s d] a IH]; simpl; intros H;
    [reflexivity|discriminate|now rewrite IH|now apply IH].
Qed.

Lemma delays_app (a b : list Event) :
  requests a = [] -> delays (a ++ b) = delays b.
Proof.
  induction a as [|[u r|d|s d] a IH]; simpl; intros H;
    [reflexivity|discriminate|now apply IH|now apply IH].
Qed.

Lemma total_app (a b : list Z) : total (a ++ b) = (total a + total b)%Z.
Proof.
  unfold total; induction a as [|x a IH]; simpl; [reflexivity|].
  rewrite IH; lia.
Qed.

(** The [async for] body adds writes on standard output and nothing else
    to what the generator does. *)
Lemma feed_cycle_other (seen : LRU.t) (its : list Item) :
  requests (fst (feed_cycle seen its)) = requests (effects its)
  /\ sleeps (fst (feed_cycle seen its)) = sleeps (effects its)
  /\ written Stderr (fst (feed_cycle seen its))
     = written Stderr (effects its).
Proof.
  revert seen; induction its as [|[ev|[torrent url]] its IH]; intros seen.
  - auto.
  - cbn [feed_cycle effects]; specialize (IH seen).
    destruct (feed_cycle seen its) as [evs seen']; cbn [fst] in *.
    destruct IH as (I1 & I2 & I3).
    destruct ev as [u r|d|[|] d]; cbn [requests sleeps written];
      rewrite ?I1, ?I2, ?I3; auto.
  - cbn [feed_cycle effects].
    destruct (LRU.contains url seen) as [found seen1].
    specialize (IH seen1).
    destruct (feed_cycle seen1 its) as [evs seen']; cbn [fst] in *.
    rewrite requests_app, sleeps_app, written_app.
    destruct found; exact IH.
Qed.

Section TrackerTrace.

Variable cfg : Config.
Variable urljoin : string -> string -> string.

Lemma extractor_requests (html : Html.Page) :
  requests (effects (items (extractor cfg urljoin html))) = [].
Proof.
  destruct html as [|root|x]; [reflexivity| |reflexivity].
  unfold extractor; cbn [Html.fromstring].
  destruct (Html.CONTENT_PATH root); [reflexivity|].
  now rewrite extract_rows_effects.
Qed.

Lemma after_get_trace (session : GetOutcome) :
  requests (effects (items (after_get cfg urljoin session))) = []
  /\ sleeps (effects (items (after_get cfg urljoin session)))
     = if cooldown_due session then [(timeout_interval cfg * 10)%Z] else [].
Proof.
  destruct session as [x|status text]; cbn [after_get cooldown_due].
  - destruct (in_HTTP_EXCEPTIONS x); [|auto].
    destruct (isinstance_OSError x && errno_ne_ECONNRESET x); auto.
  - destruct (Z.eqb status 200); cbn [negb andb];
      [|destruct text as [[|root|y]|x]; auto].
    destruct text as [[|root|y]|x]; [auto| |auto|destruct (exc_class x); auto].
    split; [apply extractor_requests|].
    unfold extractor; cbn [Html.fromstring].
    destruct (Html.CONTENT_PATH root); [reflexivity|].
    now rewrite extract_rows_effects.
Qed.

Lemma tracker_requests (session : GetOutcome) :
  requests (effects (items (tracker cfg urljoin session)))
  = [(tracker_url cfg, false)].
Proof.
  rewrite (proj1 (tracker_after_get cfg urljoin session)).
  cbn [effects requests]; now rewrite (proj1 (after_get_trace session)).
Qed.

(** X8.  One request per cycle.  Whatever the session answers, a cycle
    of the tracker opens with its one request, sent to the configured URL
    with redirects disabled, and makes no other; it sleeps only for the
    cooldown, once, and exactly when the answer is a decoded 200 page that
    parses and holds no content row. *)
Theorem tracker_one_request (session : GetOutcome) :
  (exists rest,
      items (tracker cfg urljoin session)
      = Effect (EvGet (tracker_url cfg) false) :: rest)
  /\ requests (effects (items (tracker cfg urljoin session)))
     = [(tracker_url cfg, false)]
  /\ sleeps (effects (items (tracker cfg urljoin session)))
     = if cooldown_due session then [(timeout_interval cfg * 10)%Z] else [].
Proof.
  destruct (tracker_after_get cfg urljoin session) as [Hi _].
  destruct (after_get_trace session) as [Hr Hs].
  rewrite Hi; cbn [effects requests sleeps]; rewrite Hr, Hs; eauto.
Qed.

End TrackerTrace.

(** ** Whole runs of the poll loop *)

Section RunProperties.

Variable cfg : Config.
Variable urljoin : string -> string -> string.

Lemma running_app (seen : LRU.t) (w w' : list GetOutcome) :
  running cfg urljoin seen (w ++ w')
  = match snd (running cfg urljoin seen w) with
    | RUNNING s =>
        (fst (running cfg urljoin seen w) ++ fst (running cfg urljoin s w'),
         snd (running cfg urljoin s w'))
    | _ => running cfg urljoin seen w
    end.
Proof.
  revert seen; induction w as [|session later IH]; intros seen.
  - cbn [app running fst snd]; now destruct (running cfg urljoin seen w').
  - rewrite <- app_comm_cons.
    rewrite (running_cons cfg urljoin seen session (later ++ w')).
    rewrite (running_cons cfg urljoin seen session later).
    destruct (raised (tracker cfg urljoin session)); [reflexivity|].
    cbv zeta; cbn [fst snd]; rewrite IH.
    destruct (snd (running cfg urljoin _ later)) eqn:E; cbn [fst snd];
      rewrite ?E, <- ?app_assoc, <- ?app_comm_cons;
      try reflexivity;
      now destruct (running cfg urljoin _ later).
Qed.

Lemma http_feed_cons (session0 : GetOutcome) (w : list GetOutcome) :
  http_feed cfg urljoin (session0 :: w)
  = match raised (tracker cfg urljoin session0) with
    | Some e => (effects (items (tracker cfg urljoin session0)), CRASH e)
    | None =>
        let seeded :=
          LRU.new (cache_limit cfg)
                  (seed_pairs (items (tracker cfg urljoin session0))) in
        if LRU.is_empty seeded
        then (effects (items (tracker cfg urljoin session0)),
              ABORT "Expired credentials")
        else (effects (items (tracker cfg urljoin session0))
                ++ fst (running cfg urljoin seeded w),
              snd (running cfg urljoin seeded w))
    end.
Proof.
  cbn [http_feed]; cbv zeta.
  destruct (raised (tracker cfg urljoin session0)); [reflexivity|].
  destruct (LRU.is_empty _); [reflexivity|].
  now destruct (running cfg urljoin _ w).
Qed.

(** X9.  A run only grows.  Giving the session more answers extends the
    trace and never rewrites it; and once the process has aborted or
    crashed, further answers change nothing: no request, no write and no
    sleep follows. *)
Theorem http_feed_extends (w w' : list GetOutcome) :
  (exists more,
      fst (http_feed cfg urljoin (w ++ w'))
      = fst (http_feed cfg urljoin w) ++ more)
  /\ (forall msg,
        snd (http_feed cfg urljoin w) = ABORT msg ->
        http_feed cfg urljoin (w ++ w') = http_feed cfg urljoin w)
  /\ (forall e,
        snd (http_feed cfg urljoin w) = CRASH e ->
        http_feed cfg urljoin (w ++ w') = http_feed cfg urljoin w).
Proof.
  destruct w as [|session0 w].
  - cbn [app]; split; [|split; discriminate].
    exists (fst (http_feed cfg urljoin w')); reflexivity.
  - rewrite <- app_comm_cons, !http_feed_cons.
    destruct (raised (tracker cfg urljoin session0)) as [e|].
    + split; [exists []; now rewrite app_nil_r|auto].
    + cbv zeta; destruct (LRU.is_empty _).
      * split; [exists []; now rewrite app_nil_r|auto].
      * rewrite running_app; cbn [fst snd].
        destruct (snd (running cfg urljoin _ w)) eqn:E; cbn [fst snd].
        -- split; [exists []; now rewrite app_nil_r|].
           split; intros x Hx; rewrite E; now destruct (running cfg urljoin _ w).
        -- split; [eexists; now rewrite app_assoc|split; discriminate].
        -- split; [exists []; now rewrite app_nil_r|].
           split; intros x Hx; rewrite E; now destruct (running cfg urljoin _ w).
        -- split; [exists []; now rewrite app_nil_r|].
           split; intros x Hx; rewrite E; now destruct (running cfg urljoin _ w).
Qed.

Lemma running_requests (seen : LRU.t) (w : list GetOutcome) :
  exists n,
    n <= List.length w
    /\ requests (fst (running cfg urljoin seen w))
       = repeat (tracker_url cfg, false) n
    /\ (forall seen',
          snd (running cfg urljoin seen w) = RUNNING seen' ->
          n = List.length w).
Proof.
  revert seen; induction w as [|session later IH]; intros seen.
  - exists 0; cbn; auto.
  - rewrite running_cons.
    destruct (feed_cycle_other seen (items (tracker cfg urljoin session)))
      as (Hreq & _).
    rewrite (tracker_requests cfg urljoin session) in Hreq.
    destruct (raised (tracker cfg urljoin session)).
    + exists 1; cbn [fst snd List.length repeat].
      split; [lia|split; [exact Hreq|discriminate]].
    + cbv zeta; cbn [fst snd].
      destruct (IH (snd (feed_cycle seen (items (tracker cfg urljoin session)))))
        as (n & Hn & Hr & Hal).
      exists (S n); cbn [List.length repeat].
      split; [lia|split].
      * rewrite requests_app, Hreq; cbn [requests app]; now rewrite Hr.
      * intros seen' H; f_equal; eauto.
Qed.

(** X10.  As many requests as cycles.  Every request of a run goes to
    the configured URL with redirects disabled.  A run makes at most one
    request per recorded answer, and exactly one per answer as long as the
    process has neither aborted nor crashed. *)
Theorem http_feed_requests (w : list GetOutcome) :
  exists n,
    n <= List.length w
    /\ requests (fst (http_feed cfg urljoin w))
       = repeat (tracker_url cfg, false) n
    /\ (snd (http_feed cfg urljoin w) = SEEDING
        \/ (exists seen, snd (http_feed cfg urljoin w) = RUNNING seen) ->
        n = List.length w).
Proof.
  destruct w as [|session0 w]; [exists 0; cbn; auto|].
  rewrite http_feed_cons.
  pose proof (tracker_requests cfg urljoin session0) as Hone.
  destruct (raised (tracker cfg urljoin session0)).
  - exists 1; cbn [fst snd List.length repeat].
    split; [lia|split; [exact Hone|]].
    intros [H|[s H]]; discriminate.
  - cbv zeta; destruct (LRU.is_empty _).
    + exists 1; cbn [fst snd List.length repeat].
      split; [lia|split; [exact Hone|]].
      intros [H|[s H]]; discriminate.
    + match goal with |- context [running cfg urljoin ?c w] =>
        destruct (running_requests c w) as (n & Hn & Hr & Hal) end.
      exists (S n); cbn [fst snd List.length repeat].
      split; [lia|split].
      * rewrite requests_app, Hone, Hr; reflexivity.
      * intros [H|[s H]]; [|f_equal; eauto].
        match type of H with snd (running _ _ ?c _) = _ =>
          destruct (running_status cfg urljoin c w) as [(s & E)|(e & E)]
        end; rewrite E in H; discriminate.
Qed.

Lemma flat_map_filter_ext (f g : Entry -> bool) (w : list GetOutcome) :
  (forall x, f x = g x) ->
  flat_map (fun s =>
              map (fun x : Entry => (fst x ++ NUL ++ snd x ++ LF)%string)
                  (filter f (yielded (items (tracker cfg urljoin s))))) w
  = flat_map (fun s =>
                map (fun x : Entry => (fst x ++ NUL ++ snd x ++ LF)%string)
                    (filter g (yielded (items (tracker cfg urljoin s))))) w.
Proof.
  intros H; induction w as [|s w IH]; [reflexivity|].
  cbn [flat_map]; rewrite IH; f_equal; f_equal; now apply filter_ext.
Qed.

Lemma running_stdout (seen seen' : LRU.t) (w : list GetOutcome) :
  NoDup (LRU.keys seen) ->
  snd (running cfg urljoin seen w) = RUNNING seen' ->
  written Stdout (fst (running cfg urljoin seen w))
  = flat_map
      (fun s =>
         map (fun x : Entry => (fst x ++ NUL ++ snd x ++ LF)%string)
             (filter (fun x : Entry =>
                        negb (LRU.mem (snd x) (LRU.keys seen)))
                     (yielded (items (tracker cfg urljoin s))))) w.
Proof.
  revert seen; induction w as [|session later IH]; intros seen Hnd.
  - reflexivity.
  - rewrite running_cons.
    destruct (raised (tracker cfg urljoin session)); [discriminate|].
    cbv zeta; cbn [fst snd flat_map]; intros H.
    destruct (feed_cycle_spec seen _ Hnd
                (tracker_written_stdout cfg urljoin session))
      as (Hw & _ & Hnd1 & Hp).
    rewrite written_app, Hw; cbn [written]; f_equal.
    rewrite (IH _ Hnd1 H).
    apply flat_map_filter_ext; intros x; f_equal.
    now apply LRUFacts.mem_perm.
Qed.

(** X11.  The whole output.  While the process is in the loop, what it
    has written on standard output is, cycle after cycle and in the order
    of the yields, one line [name NUL url LF] for every entry whose link
    is not a key of the cache as seeding left it.  The cycles are judged
    against the seeded keys alone: nothing written in an earlier cycle
    changes what a later cycle writes. *)
Theorem http_feed_stdout (session0 : GetOutcome) (w : list GetOutcome)
        (evs : list Event) (seen : LRU.t) :
  http_feed cfg urljoin (session0 :: w) = (evs, RUNNING seen) ->
  written Stdout evs
  = flat_map
      (fun s =>
         map (fun x : Entry => (fst x ++ NUL ++ snd x ++ LF)%string)
             (filter
                (fun x : Entry =>
                   negb (LRU.mem
                           (snd x)
                           (LRU.keys
                              (LRU.new
                                 (cache_limit cfg)
                                 (seed_pairs
                                    (items (tracker cfg urljoin session0)))))))
                (yielded (items (tracker cfg urljoin s))))) w.
Proof.
  intros H.
  destruct (http_feed_running cfg urljoin _ _ _ _ H) as (_ & _ & -> & Hs).
  rewrite written_app, tracker_written_stdout; cbn [app].
  apply (running_stdout _ seen w (LRUFacts.NoDup_new _ _) Hs).
Qed.

Lemma tracker_stderr (session : GetOutcome) :
  written Stderr (effects (items (tracker cfg urljoin session)))
  = match session with
    | GetRaises e =>
        if isinstance_OSError e && errno_ne_ECONNRESET e
        then [("Connection error: " ++ exc_str e ++ LF)%string]
        else []
    | GetResponse _ _ => []
    end.
Proof.
  rewrite (proj1 (tracker_after_get cfg urljoin session)).
  cbn [effects written].
  destruct session as [e|status text]; cbn [after_get].
  - destruct (in_HTTP_EXCEPTIONS e) eqn:Hin.
    + destruct (isinstance_OSError e && errno_ne_ECONNRESET e); cbn;
        rewrite ?TextFacts.append_assoc; reflexivity.
    + unfold in_HTTP_EXCEPTIONS in Hin; unfold isinstance_OSError.
      destruct (exc_class e); try discriminate; reflexivity.
  - destruct (negb (Z.eqb status 200)); [reflexivity|].
    destruct text as [html|x]; [apply extractor_written|].
    destruct (exc_class x); reflexivity.
Qed.

Lemma running_stderr (seen seen' : LRU.t) (w : list GetOutcome) :
  snd (running cfg urljoin seen w) = RUNNING seen' ->
  written Stderr (fst (running cfg urljoin seen w))
  = flat_map (fun s =>
                written Stderr (effects (items (tracker cfg urljoin s)))) w.
Proof.
  revert seen; induction w as [|session later IH]; intros seen.
  - reflexivity.
  - rewrite running_cons.
    destruct (raised (tracker cfg urljoin session)); [discriminate|].
    cbv zeta; cbn [fst snd flat_map]; intros H.
    rewrite written_app; cbn [written]; rewrite (IH _ H).
    now rewrite (proj2 (proj2 (feed_cycle_other seen _))).
Qed.

(** X12.  The whole error channel.  While the process is in the loop,
    what it has written on the error channel is one line
    [Connection error: <str(e)>] for every answer, in order, whose request
    raised an [OSError] instance with an [errno] other than [ECONNRESET],
    and nothing else: the loop itself reports nothing, and no other
    failure leaves a trace there. *)
Theorem http_feed_stderr (session0 : GetOutcome) (w : list GetOutcome)
        (evs : list Event) (seen : LRU.t) :
  http_feed cfg urljoin (session0 :: w) = (evs, RUNNING seen) ->
  written Stderr evs
  = flat_map
      (fun s =>
         match s with
         | GetRaises e =>
             if isinstance_OSError e && errno_ne_ECONNRESET e
             then [("Connection error: " ++ exc_str e ++ LF)%string]
             else []
         | GetResponse _ _ => []
         end) (session0 :: w).
Proof.
  intros H.
  destruct (http_feed_running cfg urljoin _ _ _ _ H) as (_ & _ & -> & Hs).
  rewrite written_app, (running_stderr _ seen w Hs).
  cbn [flat_map]; rewrite tracker_stderr; f_equal.
  clear; induction w as [|s w IH]; [reflexivity|].
  cbn [flat_map]; now rewrite IH, tracker_stderr.
Qed.

Lemma cycle_delay (seen : LRU.t) (session : GetOutcome) (rest : list Event) :
  sleeps_before_get rest = [] ->
  delays (fst (feed_cycle seen (items (tracker cfg urljoin session)))
            ++ EvSleep (timeout_interval cfg) :: rest)
  = (if cooldown_due session
     then 11 * timeout_interval cfg
     else timeout_interval cfg)%Z
      :: delays rest.
Proof.
  intros Hrest.
  rewrite (proj1 (tracker_after_get cfg urljoin session)); cbn [feed_cycle].
  destruct (feed_cycle_other seen (items (after_get cfg urljoin session)))
    as (Hreq & Hsl & _).
  destruct (after_get_trace cfg urljoin session) as [Hr Hs].
  rewrite Hr in Hreq; rewrite Hs in Hsl.
  destruct (feed_cycle seen (items (after_get cfg urljoin session)))
    as [evs seen1]; cbn [fst] in *.
  rewrite <- app_comm_cons; cbn [delays].
  rewrite (sleeps_before_get_app _ _ Hreq), (delays_app _ _ Hreq).
  cbn [sleeps_before_get delays]; rewrite Hrest, Hsl, total_app.
  f_equal; destruct (cooldown_due session); cbn [total fold_right]; lia.
Qed.

Lemma running_delays (seen seen' : LRU.t) (w : list GetOutcome) :
  snd (running cfg urljoin seen w) = RUNNING seen' ->
  delays (fst (running cfg urljoin seen w))
  = map (fun s => if cooldown_due s
                  then (11 * timeout_interval cfg)%Z
                  else timeout_interval cfg) w.
Proof.
  revert seen; induction w as [|session later IH]; intros seen.
  - reflexivity.
  - rewrite running_cons.
    destruct (raised (tracker cfg urljoin session)); [discriminate|].
    cbv zeta; cbn [fst snd map]; intros H.
    rewrite cycle_delay by apply running_opens_with_get.
    now rewrite (IH _ H).
Qed.

Lemma seeding_effects (session0 : GetOutcome) :
  yielded (items (tracker cfg urljoin session0)) <> [] ->
  effects (items (tracker cfg urljoin session0))
  = [EvGet (tracker_url cfg) false].
Proof.
  intros H.
  destruct (tracker_yielded_cases cfg urljoin session0 H)
    as (root & tag & -> & Hin & _).
  rewrite tracker_ok_items; cbn [effects]; f_equal.
  unfold extractor; cbn [Html.fromstring].
  destruct (Html.CONTENT_PATH root); [contradiction|].
  apply extract_rows_effects.
Qed.

(** X13.  The rhythm of a run.  While the process is in the loop, the
    first request of the loop follows the seeding request without any
    sleep, and every later request comes after the poll interval, or after
    eleven poll intervals when the cycle before it fetched a page that
    parses and holds no content row; no other delay occurs. *)
Theorem http_feed_delays (session0 : GetOutcome) (w : list GetOutcome)
        (evs : list Event) (seen : LRU.t) :
  http_feed cfg urljoin (session0 :: w) = (evs, RUNNING seen) ->
  delays evs
  = 0%Z :: map (fun s => if cooldown_due s
                         then (11 * timeout_interval cfg)%Z
                         else timeout_interval cfg) w.
Proof.
  intros H.
  destruct (http_feed_running cfg urljoin _ _ _ _ H) as (_ & He & -> & Hs).
  assert (Hy : yielded (items (tracker cfg urljoin session0)) <> []).
  { intros E; unfold seed_pairs in He; rewrite E in He; discriminate. }
  rewrite (seeding_effects session0 Hy); cbn [app delays].
  rewrite running_opens_with_get; cbn [total fold_right]; f_equal.
  apply (running_delays _ seen w Hs).
Qed.

(** X14.  What crashes the process.  An answer whose request raises an
    exception outside [HTTP_EXCEPTIONS], or whose body decoding raises
    anything but a timeout, or on whose decoded body [fromstring] raises
    something other than [ParserError] and [XMLSyntaxError], ends the run
    on the spot, during seeding as in the loop: the request is the last
    event, the exception leaves [http_feed], no sleep follows and nothing
    of what the session would answer later is used. *)
Theorem unhandled_exception_crashes (e : Exception) (session : GetOutcome)
        (seen : LRU.t) (later : list GetOutcome) :
  (session = GetRaises e /\ in_HTTP_EXCEPTIONS e = false)
  \/ (session = GetResponse 200 (TextRaises e)
      /\ exc_class e <> TimeoutError)
  \/ session = GetResponse 200 (TextOk (Html.Unsupported e)) ->
  http_feed cfg urljoin (session :: later)
  = ([EvGet (tracker_url cfg) false], CRASH e)
  /\ running cfg urljoin seen (session :: later)
     = ([EvGet (tracker_url cfg) false], CRASH e).
Proof.
  intros H; destruct (tracker_raised_when cfg urljoin session e H) as [Hr Hi].
  rewrite http_feed_cons, running_cons, Hr, Hi; split; reflexivity.
Qed.

(** X15.  A failed first poll is fatal.  When the first answer is a
    request failure of the absorbed kind, a status other than 200, a body
    whose decoding times out, a page that does not parse, or a page
    without a usable content row, the process stops with
    [SystemExit('Expired credentials')] after that single request, having
    written nothing on standard output, whatever the cache capacity and
    whatever the session would answer later. *)
Theorem startup_failure_aborts (session0 : GetOutcome)
        (later : list GetOutcome) :
  (exists e, session0 = GetRaises e /\ in_HTTP_EXCEPTIONS e = true)
  \/ (exists status text,
        session0 = GetResponse status text /\ status <> 200%Z)
  \/ (exists e, session0 = GetResponse 200 (TextRaises e)
                /\ exc_class e = TimeoutError)
  \/ session0 = GetResponse 200 (TextOk Html.Unparsable)
  \/ (exists root,
        session0 = GetResponse 200 (TextOk (Html.Parsed root))
        /\ forall tag, In tag (Html.CONTENT_PATH root) ->
                       XPath.usable tag = false) ->
  http_feed cfg urljoin (session0 :: later)
  = (effects (items (tracker cfg urljoin session0)),
     ABORT "Expired credentials")
  /\ requests (fst (http_feed cfg urljoin (session0 :: later)))
     = [(tracker_url cfg, false)]
  /\ written Stdout (fst (http_feed cfg urljoin (session0 :: later))) = [].
Proof.
  intros H.
  assert (Hquiet : raised (tracker cfg urljoin session0) = None
                   /\ yielded (items (tracker cfg urljoin session0)) = []).
  { rewrite (proj2 (tracker_after_get cfg urljoin session0)), tracker_yielded.
    destruct H as [(e & -> & He)|[(st & tx & -> & Hst)|[(e & -> & He)
                  |[->|(root & -> & Hrows)]]]]; cbn [after_get].
    - rewrite He.
      destruct (isinstance_OSError e && errno_ne_ECONNRESET e); auto.
    - apply Z.eqb_neq in Hst; rewrite Hst; auto.
    - rewrite He; auto.
    - auto.
    - cbn [Z.eqb Pos.eqb negb]; split; [apply extractor_parsed_raised|].
      now apply extractor_nothing_iff. }
  destruct Hquiet as [Hr Hy].
  assert (E : http_feed cfg urljoin (session0 :: later)
              = (effects (items (tracker cfg urljoin session0)),
                 ABORT "Expired credentials")).
  { rewrite http_feed_cons, Hr; cbv zeta.
    unfold seed_pairs; rewrite Hy; reflexivity. }
  rewrite E; cbn [fst].
  split; [reflexivity|split];
    [apply tracker_requests|apply tracker_written_stdout].
Qed.

Lemma filter_known_nil (ks : list string) (l : list Entry) :
  (forall x, In x l -> In (snd x) ks) ->
  filter (fun x : Entry => negb (LRU.mem (snd x) ks)) l = [].
Proof.
  induction l as [|y l IH]; intros H; [reflexivity|].
  cbn [filter].
  rewrite (proj2 (LRUFacts.mem_In (snd y) ks)) by (apply H; now left).
  cbn [negb]; apply IH; intros x Hx; apply H; now right.
Qed.

Lemma running_silent (seen : LRU.t) (w : list GetOutcome) :
  NoDup (LRU.keys seen) ->
  (forall s x, In s w -> In x (yielded (items (tracker cfg urljoin s))) ->
               In (snd x) (LRU.keys seen)) ->
  written Stdout (fst (running cfg urljoin seen w)) = [].
Proof.
  revert seen; induction w as [|session later IH]; intros seen Hnd Hall.
  - reflexivity.
  - rewrite running_cons.
    destruct (feed_cycle_spec seen _ Hnd
                (tracker_written_stdout cfg urljoin session))
      as (Hw & _ & Hnd1 & Hp).
    assert (Hcyc : written Stdout
                     (fst (feed_cycle seen
                             (items (tracker cfg urljoin session)))) = []).
    { rewrite Hw, filter_known_nil; [reflexivity|].
      intros x Hx; apply (Hall session x); [now left|exact Hx]. }
    destruct (raised (tracker cfg urljoin session)); [exact Hcyc|].
    cbv zeta; cbn [fst]; rewrite written_app, Hcyc; cbn [written app].
    apply IH; [exact Hnd1|].
    intros s x Hs Hx.
    apply (Permutation_in _ (Permutation_sym Hp)).
    apply (Hall s x); [now right|exact Hx].
Qed.

(** X16.  A stable listing is silent.  Let the links of the seeding
    sweep be no more numerous than the cache capacity.  A run in which
    every later cycle yields only entries whose links were in the seeding
    sweep writes nothing on standard output, however long it lasts and
    however it ends. *)
Theorem known_entries_never_emitted (session0 : GetOutcome)
        (w : list GetOutcome) :
  List.length
    (nodup string_dec
           (map snd (yielded (items (tracker cfg urljoin session0)))))
  <= cache_limit cfg ->
  (forall s x,
      In s w -> In x (yielded (items (tracker cfg urljoin s))) ->
      In (snd x)
         (map snd (yielded (items (tracker cfg urljoin session0))))) ->
  written Stdout (fst (http_feed cfg urljoin (session0 :: w))) = [].
Proof.
  intros Hfit Hall; rewrite http_feed_cons.
  destruct (raised (tracker cfg urljoin session0));
    [apply tracker_written_stdout|].
  cbv zeta; destruct (LRU.is_empty _); [apply tracker_written_stdout|].
  cbn [fst]; rewrite written_app, tracker_written_stdout; cbn [app].
  apply running_silent; [apply LRUFacts.NoDup_new|].
  intros s x Hs Hx.
  rewrite LRUFacts.new_keys_fit.
  - apply LRUFacts.In_recency.
    unfold seed_pairs; rewrite map_map; cbn [fst].
    exact (Hall s x Hs Hx).
  - unfold seed_pairs; rewrite map_map; exact Hfit.
Qed.

End RunProperties.

(** ** The further properties on the sample listing *)

Lemma NAME_PATH_by_steps_witness :
  exists td a,
    In td (XPath.descendant (Sample.row "A" "/t/1"))
    /\ XPath.is_name_cell td = true
    /\ In a (XPath.descendant td) /\ XPath.is_name_anchor a = true
    /\ Html.NAME_PATH (Sample.row "A" "/t/1") = Html.string_value a.
Proof.
  apply (proj1 (NAME_PATH_by_steps (Sample.row "A" "/t/1"))).
  exists Sample.name_cell_A, Sample.name_anchor_A.
  split; [left; reflexivity|].
  split; [reflexivity|].
  split; [left; reflexivity|reflexivity].
Defined.

Lemma LINK_PATH_by_steps_witness :
  exists td a,
    In td (XPath.descendant (Sample.row "A" "/t/1"))
    /\ XPath.is_link_cell td = true
    /\ In a (Html.children_of td) /\ Html.is_download_anchor a = true
    /\ In (Html.LINK_PATH (Sample.row "A" "/t/1")) (Html.href_of a).
Proof.
  apply (proj1 (LINK_PATH_by_steps (Sample.row "A" "/t/1"))).
  exists Sample.link_cell_A, Sample.link_anchor_A, "/t/1".
  split; [right; right; right; left; reflexivity|].
  split; [reflexivity|].
  split; [left; reflexivity|].
  split; [reflexivity|left; reflexivity].
Defined.

Lemma extractor_provenance_witness :
  exists tag,
    In tag (Html.descendant_or_self (Sample.table [Sample.row "A" "/t/1"]))
    /\ Html.is_tag_with_class "tr" "hl-tr" tag = true
    /\ (exists td a,
          In td (XPath.descendant tag) /\ XPath.is_name_cell td = true
          /\ In a (XPath.descendant td) /\ XPath.is_name_anchor a = true
          /\ "A" = Text.strip (Html.string_value a))
    /\ (exists td a h,
          In td (XPath.descendant tag) /\ XPath.is_link_cell td = true
          /\ In a (Html.children_of td) /\ Html.is_download_anchor a = true
          /\ In h (Html.href_of a)
          /\ "https://tracker/t/1"
             = Sample.urljoin (tracker_url Sample.cfg) (Text.strip h)).
Proof.
  apply (extractor_provenance Sample.cfg Sample.urljoin
           (Sample.table [Sample.row "A" "/t/1"])).
  left; reflexivity.
Defined.

Lemma extractor_count_witness :
  yielded (items (extractor Sample.cfg Sample.urljoin
                    (Html.Parsed
                       (Sample.table [Sample.row_without_link "B"])))) = [].
Proof.
  apply (proj2 (proj2 (extractor_count
                         Sample.cfg Sample.urljoin
                         (Sample.table [Sample.row_without_link "B"])))).
  intros tag [<-|[]]; reflexivity.
Defined.

Lemma extractor_cooldown_cases_witness :
  items (extractor Sample.cfg Sample.urljoin (Sample.page []))
  = [Effect (EvSleep 300)]
  /\ items (extractor Sample.cfg Sample.urljoin
              (Sample.page [Sample.row_without_link "B"])) = []
  /\ raised (extractor Sample.cfg Sample.urljoin Sample.declared_page)
     = Some Sample.value_error.
Proof.
  split; [|split].
  - exact (proj1 (proj1 (proj2 (proj2 (extractor_cooldown_cases
                                         Sample.cfg Sample.urljoin
                                         (Sample.page []))))
                        _ eq_refl eq_refl)).
  - refine (proj1 (proj2 (proj1 (proj2 (proj2 (proj2
              (extractor_cooldown_cases
                 Sample.cfg Sample.urljoin
                 (Sample.page [Sample.row_without_link "B"])))))
              _ eq_refl _) _)).
    + vm_compute; discriminate.
    + intros tag [<-|[]]; reflexivity.
  - exact (proj2 (proj1 (proj2 (extractor_cooldown_cases
                                  Sample.cfg Sample.urljoin
                                  Sample.declared_page))
                        Sample.value_error eq_refl)).
Defined.

Lemma tracker_lets_through_witness :
  raised (tracker Sample.cfg Sample.urljoin
                  (GetResponse 200 (TextRaises Sample.payload_error)))
  = Some Sample.payload_error
  /\ raised (tracker Sample.cfg Sample.urljoin
                     (GetResponse 200 (TextOk Sample.declared_page)))
     = Some Sample.value_error.
Proof.
  split.
  - refine (proj1 (tracker_lets_through
                     Sample.cfg Sample.urljoin
                     (GetResponse 200 (TextRaises Sample.payload_error))
                     Sample.payload_error _)).
    right; left; split; [reflexivity|discriminate].
  - refine (proj1 (tracker_lets_through
                     Sample.cfg Sample.urljoin
                     (GetResponse 200 (TextOk Sample.declared_page))
                     Sample.value_error _)).
    right; right; reflexivity.
Defined.

Lemma tracker_yields_only_on_ok_witness :
  exists root tag,
    Sample.listing_A = GetResponse 200 (TextOk (Html.Parsed root))
    /\ In tag (Html.CONTENT_PATH root) /\ XPath.usable tag = true.
Proof.
  apply (proj2 (tracker_yields_only_on_ok
                  Sample.cfg Sample.urljoin Sample.listing_A)).
  vm_compute; discriminate.
Defined.

Lemma http_feed_extends_witness :
  http_feed Sample.cfg Sample.urljoin
            ([Sample.listing_empty] ++ [Sample.listing_A])
  = http_feed Sample.cfg Sample.urljoin [Sample.listing_empty].
Proof.
  exact (proj1 (proj2 (http_feed_extends
                         Sample.cfg Sample.urljoin
                         [Sample.listing_empty] [Sample.listing_A]))
               "Expired credentials" eq_refl).
Defined.

Lemma http_feed_requests_witness :
  exists n,
    requests (fst (http_feed Sample.cfg Sample.urljoin
                             [Sample.listing_A; Sample.listing_AB]))
    = repeat ("https://tracker", false) n
    /\ n = 2.
Proof.
  destruct (http_feed_requests Sample.cfg Sample.urljoin
              [Sample.listing_A; Sample.listing_AB])
    as (n & _ & Hr & Halive).
  exists n; split; [exact Hr|].
  apply Halive; right; exists Sample.seen_A; reflexivity.
Defined.

Lemma http_feed_stdout_witness :
  written Stdout
    (fst (http_feed Sample.cfg Sample.urljoin
                    [Sample.listing_A; Sample.listing_AB; Sample.listing_AB]))
  = [("B" ++ NUL ++ "https://tracker/t/2" ++ LF)%string;
     ("B" ++ NUL ++ "https://tracker/t/2" ++ LF)%string].
Proof.
  exact (http_feed_stdout
           Sample.cfg Sample.urljoin Sample.listing_A
           [Sample.listing_AB; Sample.listing_AB]
           (fst (http_feed Sample.cfg Sample.urljoin
                           [Sample.listing_A; Sample.listing_AB;
                            Sample.listing_AB]))
           Sample.seen_A eq_refl).
Defined.

Lemma http_feed_stderr_witness :
  written Stderr
    (fst (http_feed Sample.cfg Sample.urljoin
                    [Sample.listing_A; GetRaises Sample.connection_refused;
                     GetRaises Sample.connection_reset]))
  = [("Connection error: [Errno 111] Connect call failed" ++ LF)%string].
Proof.
  exact (http_feed_stderr
           Sample.cfg Sample.urljoin Sample.listing_A
           [GetRaises Sample.connection_refused;
            GetRaises Sample.connection_reset]
           (fst (http_feed Sample.cfg Sample.urljoin
                           [Sample.listing_A;
                            GetRaises Sample.connection_refused;
                            GetRaises Sample.connection_reset]))
           Sample.seen_A eq_refl).
Defined.

Lemma http_feed_delays_witness :
  delays (fst (http_feed Sample.cfg Sample.urljoin
                         [Sample.listing_A; Sample.listing_empty;
                          Sample.listing_A]))
  = [0; 330; 30]%Z.
Proof.
  exact (http_feed_delays
           Sample.cfg Sample.urljoin Sample.listing_A
           [Sample.listing_empty; Sample.listing_A]
           (fst (http_feed Sample.cfg Sample.urljoin
                           [Sample.listing_A; Sample.listing_empty;
                            Sample.listing_A]))
           Sample.seen_A eq_refl).
Defined.

Lemma unhandled_exception_crashes_witness :
  running Sample.cfg Sample.urljoin Sample.seen_A
          [GetResponse 200 (TextOk Sample.declared_page);
           Sample.listing_AB]
  = ([EvGet "https://tracker" false], CRASH Sample.value_error).
Proof.
  refine (proj2 (unhandled_exception_crashes
                   Sample.cfg Sample.urljoin Sample.value_error
                   (GetResponse 200 (TextOk Sample.declared_page))
                   Sample.seen_A [Sample.listing_AB] _)).
  right; right; reflexivity.
Defined.

Lemma startup_failure_aborts_witness :
  http_feed Sample.cfg Sample.urljoin
            [GetRaises Sample.connection_refused; Sample.listing_A]
  = ([EvGet "https://tracker" false;
      EvWrite Stderr
        ("Connection error: [Errno 111] Connect call failed" ++ LF)%string],
     ABORT "Expired credentials").
Proof.
  refine (proj1 (startup_failure_aborts
                   Sample.cfg Sample.urljoin
                   (GetRaises Sample.connection_refused)
                   [Sample.listing_A] _)).
  left; exists Sample.connection_refused; split; reflexivity.
Defined.

Lemma known_entries_never_emitted_witness :
  written Stdout
    (fst (http_feed Sample.cfg Sample.urljoin
                    [Sample.listing_AB; Sample.listing_A; Sample.listing_AB]))
  = [].
Proof.
  apply (known_entries_never_emitted
           Sample.cfg Sample.urljoin Sample.listing_AB
           [Sample.listing_A; Sample.listing_AB]).
  - vm_compute; repeat constructor.
  - intros s x [<-|[<-|[]]] Hx; vm_compute in Hx; vm_compute;
      intuition (subst; auto).
Defined.
